(** * The [link] builder action of rules_go

    A shallow embedding of [go/tools/builders/link.go] and the proofs of
    its argument-assembly, stamping and clean-up properties.

    Go strings are byte sequences: they are embedded as [string], whose
    characters ([ascii]) are exactly the 256 byte values.  Go's [int]
    indices are embedded as [Z], with [-1] for "not found" as in the
    [strings] package.  The [map[string]string] of stamp values is a
    [gmap string string]. *)

From Stdlib Require Import ZArith Ascii String List Lia.
From stdpp Require Import base option gmap strings list fin_maps.

Import ListNotations.
Local Open Scope string_scope.
Local Open Scope list_scope.
Local Open Scope Z_scope.

(** ** The pieces of Go's [strings] and [fmt] packages that [link] uses *)

Module GoStrings.

(** [len(s)] *)
Definition len (s : string) : Z := Z.of_nat (String.length s).

(** [strings.IndexByte(s, c)]: index of the first [c] in [s], or [-1]. *)
Fixpoint IndexByte (s : string) (c : ascii) : Z :=
  match s with
  | EmptyString => -1
  | String a rest =>
      if Ascii.eqb a c then 0
      else let i := IndexByte rest c in
           if i <? 0 then -1 else i + 1
  end.

(** [strings.LastIndexByte(s, c)]: index of the last [c] in [s], or [-1]. *)
Fixpoint LastIndexByte (s : string) (c : ascii) : Z :=
  match s with
  | EmptyString => -1
  | String a rest =>
      let i := LastIndexByte rest c in
      if 0 <=? i then i + 1
      else if Ascii.eqb a c then 0 else -1
  end.

(** The slice expression [s[lo:hi]].  Go panics unless
    [0 <= lo <= hi <= len(s)]; every use below is shown to stay inside
    that range (lemma [parseXdef_slices_in_range]), so the embedding
    is the total [substring]. *)
Definition slice (s : string) (lo hi : Z) : string :=
  substring (Z.to_nat lo) (Z.to_nat (hi - lo)) s.

(** [s[lo:]] *)
Definition slice_from (s : string) (lo : Z) : string := slice s lo (len s).

(** [s[:hi]] *)
Definition slice_to (s : string) (hi : Z) : string := slice s 0 hi.

(** [c] occurs in [s]. *)
Fixpoint has_byte (c : ascii) (s : string) : bool :=
  match s with
  | EmptyString => false
  | String a rest => Ascii.eqb a c || has_byte c rest
  end.

(** The index expression [s[i]], for [0 <= i < len(s)]. *)
Definition byte_at (s : string) (i : Z) : option ascii :=
  String.get (Z.to_nat i) s.

(** [strings.Index(s, substr)].  As in the Go implementation, an empty
    [substr] is found at [0] and a one-byte [substr] is searched with
    [IndexByte]; longer ones are searched from the left. *)
Definition Index (s substr : string) : Z :=
  match substr with
  | EmptyString => 0
  | String c EmptyString => IndexByte s c
  | _ => match String.index 0 substr s with
         | Some i => Z.of_nat i
         | None => -1
         end
  end.

(** The loop of [genSplit]: at most [k] more cuts, the rest of the
    string is the last element. *)
Fixpoint splitLoop (k : nat) (s sep : string) : list string :=
  match k with
  | O => [s]
  | S k' =>
      let m := Index s sep in
      if m <? 0 then [s]
      else slice_to s m :: splitLoop k' (slice_from s (m + len sep)) sep
  end.

(** [strings.SplitN(s, sep, n)] for a non-empty [sep] and [n >= 0]:
    [nil] when [n] is [0], otherwise at most [n] substrings, the last
    one being the unsplit remainder. *)
Definition SplitN (s sep : string) (n : nat) : list string :=
  match n with
  | O => []
  | S k => splitLoop k s sep
  end.

End GoStrings.
Import GoStrings.

(** ** [bufio.Scanner] with the default split function [bufio.ScanLines] *)

Module GoBufio.

(** [bufio.MaxScanTokenSize]: the size the scanner's buffer may grow to. *)
Definition MaxScanTokenSize : Z := 64 * 1024.

(** [dropCR] drops one terminal carriage return. *)
Definition dropCR (data : string) : string :=
  if (len data >? 0) &&
     match byte_at data (len data - 1) with
     | Some c => Ascii.eqb c "013"
     | None => false
     end
  then slice data 0 (len data - 1)
  else data.

(** [bufio.ScanLines(data, atEOF)]: how far to advance, and the token
    if there is one. *)
Definition ScanLines (data : string) (atEOF : bool) : Z * option string :=
  if atEOF && (len data =? 0) then (0, None)
  else
    let i := IndexByte data "010" in
    if 0 <=? i then (i + 1, Some (dropCR (slice data 0 i)))
    else if atEOF then (len data, Some (dropCR data))
    else (0, None).

(** The tokens that successive [Scan()] calls return for a reader over
    [rest].  The split function sees the unread bytes that fit the
    buffer; it is told [atEOF] once all unread bytes fit with room to
    spare, so that the reader's end was observed.  When it finds no
    token [Scan] returns false: the input is exhausted, or the line
    does not fit the buffer ([ErrTooLong]). *)
Fixpoint scanTokens (fuel : nat) (rest : string) : list string :=
  match fuel with
  | O => []
  | S fuel' =>
      let window := slice_to rest (Z.min (len rest) MaxScanTokenSize) in
      let atEOF := len rest <? MaxScanTokenSize in
      match ScanLines window atEOF with
      | (advance, Some token) =>
          token :: scanTokens fuel' (slice_from rest advance)
      | (_, None) => []
      end
  end.

(** Every token consumes at least one byte, so [len(buf) + 1] rounds
    reach the end (lemma [scanTokens_fuel]). *)
Definition scanAll (buf : string) : list string :=
  scanTokens (S (String.length buf)) buf.

End GoBufio.
Import GoBufio.

(** Go's [error] values are identified with their message, [err.Error()];
    [%v] and [%s] print that message. *)
Definition error : Type := string.

(** ** [parseXdef] (link.go, lines 105-119)

    The closure captures [*packagePath]; it is the first argument here. *)
Definition parseXdef (packagePath : string) (xdef : string)
  : error + (string * string * string) :=
  let eq := IndexByte xdef "=" in
  if eq <? 0 then
    inl ("-X or -Xstamp flag does not contain '=': " +:+ xdef)
  else
    let dot := LastIndexByte (slice_to xdef eq) "." in
    if dot <? 0 then
      inl ("-X or -Xstamp flag does not contain '.': " +:+ xdef)
    else
      let pkg := slice_to xdef dot in
      let name := slice xdef (dot + 1) eq in
      let value := slice_from xdef (eq + 1) in
      let pkg := if String.eqb pkg packagePath then "main" else pkg in
      inr (pkg, name, value).

(** ** Loading the stamp files (link.go, lines 72-92) *)

(** The body of the scanning loop, lines 80-90: one line of a stamp file
    updates the table. *)
Definition stampLine (stampMap : gmap string string) (text : string)
  : gmap string string :=
  let line := SplitN text " " 2 in
  match line with
  | [] => (* case 0: nothing to do here *) stampMap
  | [key] => (* case 1: map to the empty string *) <[key := ""]> stampMap
  | [key; value] => (* case 2: key and value *) <[key := value]> stampMap
  | _ => stampMap
  end.

(** The scanning loop, lines 78-91, over the contents of one stamp file. *)
Definition scanStampBuf (stampbuf : string) (stampMap : gmap string string)
  : gmap string string :=
  fold_left stampLine (scanAll stampbuf) stampMap.

(** ** The flag variables of [link] (lines 38-53) *)

(** Modelled from the spec: the element type of [linkArchiveMultiFlag],
    declared outside link.go; the data model gives it as the triple of
    build-system label, import path and file path. *)
Record archive : Type := Archive {
  label : string;
  pkgPath : string;
  file : string
}.

Record LinkFlags : Type := MkLinkFlags {
  main : string;                   (* -main *)
  packagePath : string;            (* -p *)
  outFile : string;                (* -o *)
  archives : list archive;         (* -arc, repeated *)
  packageList : string;            (* -package_list *)
  buildmode : string;              (* -buildmode *)
  xdefs : list string;             (* -X, repeated *)
  xstamps : list string;           (* -Xstamp, repeated *)
  stamps : list string;            (* -stamp, repeated *)
  packageConflictIsError : bool    (* -package_conflict_is_error *)
}.

(** The values the flag variables are declared with. *)
Definition linkFlagDefaults : LinkFlags :=
  {| main := ""; packagePath := ""; outFile := ""; archives := [];
     packageList := ""; buildmode := ""; xdefs := []; xstamps := [];
     stamps := []; packageConflictIsError := false |}.

(** ** What [link] does to the outside world

    The calls that create or delete files or start a process, in the
    order they are made.  Each of them is made at most once in a run. *)
Inductive Event : Type :=
| BuildImportcfgFileForLink
    (archives : list archive) (packageList installSuffix dir : string)
    (packageConflictIsError : bool)
| RunCommand (goargs : list string)
| StripArMetadata (outFile : string)
| Remove (name : string).

(** The collaborators of [link] that live outside link.go (the rest of
    the builders package, the [flag], [os], [ioutil], [filepath] and
    [runtime] packages), as one run sees them.  [goenv] is the type of
    the value returned by [envFlags]. *)
Record Env (goenv : Type) : Type := MkEnv {
  readParamsFiles : list string -> error + list string;
  splitArgs : list string -> list string * list string;
  (** [envFlags], the flag declarations and [flags.Parse]: from the
      declared defaults to the parsed flag values. *)
  flagsParse : LinkFlags -> list string -> error + (LinkFlags * goenv);
  checkFlags : goenv -> option error;
  installSuffix : goenv -> string;
  goTool : goenv -> string -> list string;
  runCommand : goenv -> list string -> option error;
  GOOS : string;
  abs : string -> string;
  filepath_Dir : string -> string;
  ReadFile : string -> error + string;
  buildImportcfgFileForLink :
    list archive -> string -> string -> string -> bool -> error + string;
  stripArMetadata : string -> option error
}.

Arguments readParamsFiles {goenv} _ _.
Arguments splitArgs {goenv} _ _.
Arguments flagsParse {goenv} _ _ _.
Arguments checkFlags {goenv} _ _.
Arguments installSuffix {goenv} _ _.
Arguments goTool {goenv} _ _ _.
Arguments runCommand {goenv} _ _ _.
Arguments GOOS {goenv} _.
Arguments abs {goenv} _ _.
Arguments filepath_Dir {goenv} _ _.
Arguments ReadFile {goenv} _ _.
Arguments buildImportcfgFileForLink {goenv} _ _ _ _ _ _.
Arguments stripArMetadata {goenv} _ _.

Section Link.

Context {goenv : Type}.
Variable E : Env goenv.

(** Lines 66-69: the flag variables [*outFile] and [*main] are
    overwritten in place. *)
Definition normalizePaths (fl : LinkFlags) : LinkFlags :=
  let outFile' :=
    if negb (String.eqb (GOOS E) "darwin") then abs E (outFile fl)
    else outFile fl in
  let main' := abs E (main fl) in
  {| main := main'; packagePath := packagePath fl; outFile := outFile';
     archives := archives fl; packageList := packageList fl;
     buildmode := buildmode fl; xdefs := xdefs fl; xstamps := xstamps fl;
     stamps := stamps fl;
     packageConflictIsError := packageConflictIsError fl |}.

(** Lines 73-92: the loop over the stamp files, updating the one table
    [stampMap]. *)
Fixpoint loadStampFiles (stamps : list string)
    (stampMap : gmap string string) : error + gmap string string :=
  match stamps with
  | [] => inr stampMap
  | stampfile :: rest =>
      match ReadFile E stampfile with
      | inl err =>
          inl ("Failed reading stamp file " +:+ stampfile +:+ ": " +:+ err)
      | inr stampbuf =>
          loadStampFiles rest (scanStampBuf stampbuf stampMap)
      end
  end.

(** [fmt.Sprintf("%s.%s=%s", pkg, name, value)] *)
Definition sprintfXdef (pkg name value : string) : string :=
  pkg +:+ "." +:+ name +:+ "=" +:+ value.

(** Lines 120-128: the loop over the -Xstamp requests. *)
Fixpoint xstampsLoop (packagePath : string)
    (stampMap : gmap string string) (xstamps : list string)
    (goargs : list string) : error + list string :=
  match xstamps with
  | [] => inr goargs
  | xdef :: rest =>
      match parseXdef packagePath xdef with
      | inl err => inl err
      | inr (pkg, name, key) =>
          match stampMap !! key with
          | Some value =>
              xstampsLoop packagePath stampMap rest
                (goargs ++ ["-X"; sprintfXdef pkg name value])
          | None => xstampsLoop packagePath stampMap rest goargs
          end
      end
  end.

(** Lines 129-135: the loop over the -X requests. *)
Fixpoint xdefsLoop (packagePath : string) (xdefs : list string)
    (goargs : list string) : error + list string :=
  match xdefs with
  | [] => inr goargs
  | xdef :: rest =>
      match parseXdef packagePath xdef with
      | inl err => inl err
      | inr (pkg, name, value) =>
          xdefsLoop packagePath rest
            (goargs ++ ["-X"; sprintfXdef pkg name value])
      end
  end.

(** [defer f()]: the rest of the function runs, then [f], and the
    function returns what the rest returned. *)
Definition defer (f : Event) (rest : list Event * option error)
  : list Event * option error :=
  (fst rest ++ [f], snd rest).

(** Lines 32-59, "Parse arguments": the parsed flag values, the
    toolchain environment and the pass-through arguments.  (The flag
    set is created with [flag.ExitOnError], so on a malformed flag
    [flags.Parse] ends the process itself; the run is over at this
    point either way.) *)
Definition parseArguments (args : list string)
  : error + (LinkFlags * goenv * list string) :=
  match readParamsFiles E args with
  | inl err => inl err
  | inr args =>
      let '(builderArgs, toolArgs) := splitArgs E args in
      match flagsParse E linkFlagDefaults builderArgs with
      | inl err => inl err
      | inr (fl, goenv) =>
          match checkFlags E goenv with
          | Some err => inl err
          | None => inr (fl, goenv, toolArgs)
          end
      end
  end.

(** [link] (lines 31-156): the calls made, and the error returned
    ([None] is Go's [nil]). *)
Definition link (args : list string) : list Event * option error :=
  match parseArguments args with
  | inl err => ([], Some err)
  | inr (fl, goenv, toolArgs) =>
  let fl := normalizePaths fl in
  match loadStampFiles (stamps fl) ∅ with
  | inl err => ([], Some err)
  | inr stampMap =>
  (* Build an importcfg file. *)
  let built :=
    BuildImportcfgFileForLink (archives fl) (packageList fl)
      (installSuffix E goenv) (filepath_Dir E (outFile fl))
      (packageConflictIsError fl) in
  match buildImportcfgFileForLink E (archives fl) (packageList fl)
          (installSuffix E goenv) (filepath_Dir E (outFile fl))
          (packageConflictIsError fl) with
  | inl err => ([built], Some err)
  | inr importcfgName =>
  let '(calls, err) :=
    defer (Remove importcfgName)
      (* generate any additional link options we need *)
      (let goargs := goTool E goenv "link" in
       let goargs := goargs ++ ["-importcfg"; importcfgName] in
       match xstampsLoop (packagePath fl) stampMap (xstamps fl) goargs with
       | inl err => ([], Some err)
       | inr goargs =>
       match xdefsLoop (packagePath fl) (xdefs fl) goargs with
       | inl err => ([], Some err)
       | inr goargs =>
       let goargs :=
         if negb (String.eqb (buildmode fl) "")
         then goargs ++ ["-buildmode"; buildmode fl] else goargs in
       let goargs := goargs ++ ["-o"; outFile fl] in
       (* add in the unprocess pass through options *)
       let goargs := goargs ++ toolArgs in
       let goargs := goargs ++ [main fl] in
       match runCommand E goenv goargs with
       | Some err => ([RunCommand goargs], Some err)
       | None =>
           if String.eqb (buildmode fl) "c-archive" then
             match stripArMetadata E (outFile fl) with
             | Some err =>
                 ([RunCommand goargs; StripArMetadata (outFile fl)],
                  Some ("error stripping archive metadata: " +:+ err))
             | None =>
                 ([RunCommand goargs; StripArMetadata (outFile fl)], None)
             end
           else ([RunCommand goargs], None)
       end end end) in
  (built :: calls, err)
  end end end.

End Link.

Arguments normalizePaths {goenv} E fl.
Arguments loadStampFiles {goenv} E stamps stampMap.
Arguments parseArguments {goenv} E args.
Arguments link {goenv} E args.

(** ** Reference definitions used in the statements *)

(** The one-byte string holding a line feed. *)
Definition LF : string := String "010" EmptyString.

(** A string of [n] bytes [c]. *)
Fixpoint repeatByte (n : nat) (c : ascii) : string :=
  match n with
  | O => EmptyString
  | S k => String c (repeatByte k c)
  end.

(** What the specification's reading of [parseXdef] computes: the cut is
    at the LAST '=', then at the last '.' of the left-hand side. *)
Definition parseXdef_lastEq (packagePath : string) (xdef : string)
  : error + (string * string * string) :=
  let eq := LastIndexByte xdef "=" in
  if eq <? 0 then
    inl ("-X or -Xstamp flag does not contain '=': " +:+ xdef)
  else
    let dot := LastIndexByte (slice_to xdef eq) "." in
    if dot <? 0 then
      inl ("-X or -Xstamp flag does not contain '.': " +:+ xdef)
    else
      let pkg := slice_to xdef dot in
      let name := slice xdef (dot + 1) eq in
      let value := slice_from xdef (eq + 1) in
      let pkg := if String.eqb pkg packagePath then "main" else pkg in
      inr (pkg, name, value).

(** The arguments one -Xstamp request contributes, given the table. *)
Definition xstampArgs (packagePath : string) (stampMap : gmap string string)
    (xdef : string) : list string :=
  match parseXdef packagePath xdef with
  | inr (pkg, name, key) =>
      match stampMap !! key with
      | Some value => ["-X"; sprintfXdef pkg name value]
      | None => []
      end
  | inl _ => []
  end.

(** The arguments one -X request contributes. *)
Definition xdefArgs (packagePath : string) (xdef : string) : list string :=
  match parseXdef packagePath xdef with
  | inr (pkg, name, value) => ["-X"; sprintfXdef pkg name value]
  | inl _ => []
  end.

(** A request that [parseXdef] accepts. *)
Definition parses (packagePath : string) (xdef : string) : Prop :=
  exists r, parseXdef packagePath xdef = inr r.

(** The table of one stamp file read on its own. *)
Definition fileTable (stampbuf : string) : gmap string string :=
  scanStampBuf stampbuf ∅.

(** Overwriting [table] key by key with the entries of [newer]. *)
Definition overwrite (table newer : gmap string string)
  : gmap string string :=
  newer ∪ table.

(** The specification's merged table: load the first file, then
    overwrite with each later file in turn. *)
Definition mergeTables (bufs : list string) : gmap string string :=
  match bufs with
  | [] => ∅
  | first :: later =>
      fold_left (fun table buf => overwrite table (fileTable buf))
                later (fileTable first)
  end.

(** The value of [key] in the last-declared file that defines it. *)
Fixpoint latestValue (key : string) (bufs : list string) : option string :=
  match bufs with
  | [] => None
  | buf :: later =>
      match latestValue key later with
      | Some v => Some v
      | None => fileTable buf !! key
      end
  end.

Definition isStrip (e : Event) : bool :=
  match e with StripArMetadata _ => true | _ => false end.

Definition isRemove (e : Event) : bool :=
  match e with Remove _ => true | _ => false end.

(** How many times the archive post-processing step was run. *)
Definition countStrips (calls : list Event) : nat :=
  List.length (List.filter isStrip calls).

(** The one-byte string holding a carriage return. *)
Definition CR : string := String "013" EmptyString.

(** A text made of the given lines, each ended by [eol]. *)
Definition textOf (eol : string) (lines : list string) : string :=
  fold_right (fun line text => line +:+ eol +:+ text) "" lines.

(** A line the scanner can return whole: it holds no line feed and fits
    the buffer together with its line feed. *)
Definition scannable (line : string) : Prop :=
  has_byte "010" line = false /\ len line < MaxScanTokenSize.

(** One entry as a stamp file writes it: the key alone, or the key, a
    space and the value. *)
Definition entryLine (entry : string * option string) : string :=
  match entry with
  | (key, Some value) => key +:+ " " +:+ value
  | (key, None) => key
  end.

(** What the table holds for an entry. *)
Definition entryBinding (entry : string * option string) : string * string :=
  (fst entry, default "" (snd entry)).

(** The argument list in the order the specification gives: the
    toolchain prefix, the import configuration, the resolved indirect
    and direct substitutions, the build mode if one is declared, the
    output path, the pass-through arguments and the main unit. *)
Definition toolArguments (prefix : list string) (importcfgName : string)
    (stampMap : gmap string string) (fl : LinkFlags)
    (toolArgs : list string) : list string :=
  prefix ++ ["-importcfg"; importcfgName]
    ++ flat_map (xstampArgs (packagePath fl) stampMap) (xstamps fl)
    ++ flat_map (xdefArgs (packagePath fl)) (xdefs fl)
    ++ (if String.eqb (buildmode fl) "" then []
        else ["-buildmode"; buildmode fl])
    ++ ["-o"; outFile fl] ++ toolArgs ++ [main fl].

Section ExitPaths.

Context {goenv : Type}.
Variable E : Env goenv.
(** The flag values after [normalizePaths], the toolchain environment
    and the pass-through arguments. *)
Variable fl : LinkFlags.
Variable ge : goenv.
Variable toolArgs : list string.

(** The call that creates the import configuration, and its result. *)
Definition importcfgCall : Event :=
  BuildImportcfgFileForLink (archives fl) (packageList fl)
    (installSuffix E ge) (filepath_Dir E (outFile fl))
    (packageConflictIsError fl).

Definition importcfgResult : error + string :=
  buildImportcfgFileForLink E (archives fl) (packageList fl)
    (installSuffix E ge) (filepath_Dir E (outFile fl))
    (packageConflictIsError fl).

(** The ways [link] returns once its arguments are parsed: the calls
    made and the error returned on each. *)
Inductive LinkExit : list Event -> option error -> Prop :=
| StampReadFailed err :
    loadStampFiles E (stamps fl) ∅ = inl err ->
    LinkExit [] (Some err)
| ImportcfgFailed stampMap err :
    loadStampFiles E (stamps fl) ∅ = inr stampMap ->
    importcfgResult = inl err ->
    LinkExit [importcfgCall] (Some err)
| XstampMalformed stampMap importcfgName err :
    loadStampFiles E (stamps fl) ∅ = inr stampMap ->
    importcfgResult = inr importcfgName ->
    xstampsLoop (packagePath fl) stampMap (xstamps fl)
      (goTool E ge "link" ++ ["-importcfg"; importcfgName]) = inl err ->
    LinkExit [importcfgCall; Remove importcfgName] (Some err)
| XdefMalformed stampMap importcfgName goargs err :
    loadStampFiles E (stamps fl) ∅ = inr stampMap ->
    importcfgResult = inr importcfgName ->
    Forall (parses (packagePath fl)) (xstamps fl) ->
    xdefsLoop (packagePath fl) (xdefs fl) goargs = inl err ->
    LinkExit [importcfgCall; Remove importcfgName] (Some err)
| ToolFailed stampMap importcfgName goargs err :
    loadStampFiles E (stamps fl) ∅ = inr stampMap ->
    importcfgResult = inr importcfgName ->
    Forall (parses (packagePath fl)) (xstamps fl) ->
    Forall (parses (packagePath fl)) (xdefs fl) ->
    goargs = toolArguments (goTool E ge "link") importcfgName stampMap
               fl toolArgs ->
    runCommand E ge goargs = Some err ->
    LinkExit [importcfgCall; RunCommand goargs; Remove importcfgName]
             (Some err)
| Linked stampMap importcfgName goargs :
    loadStampFiles E (stamps fl) ∅ = inr stampMap ->
    importcfgResult = inr importcfgName ->
    Forall (parses (packagePath fl)) (xstamps fl) ->
    Forall (parses (packagePath fl)) (xdefs fl) ->
    goargs = toolArguments (goTool E ge "link") importcfgName stampMap
               fl toolArgs ->
    runCommand E ge goargs = None ->
    buildmode fl <> "c-archive" ->
    LinkExit [importcfgCall; RunCommand goargs; Remove importcfgName] None
| StripFailed stampMap importcfgName goargs err :
    loadStampFiles E (stamps fl) ∅ = inr stampMap ->
    importcfgResult = inr importcfgName ->
    Forall (parses (packagePath fl)) (xstamps fl) ->
    Forall (parses (packagePath fl)) (xdefs fl) ->
    goargs = toolArguments (goTool E ge "link") importcfgName stampMap
               fl toolArgs ->
    runCommand E ge goargs = None ->
    buildmode fl = "c-archive" ->
    stripArMetadata E (outFile fl) = Some err ->
    LinkExit [importcfgCall; RunCommand goargs;
              StripArMetadata (outFile fl); Remove importcfgName]
             (Some ("error stripping archive metadata: " +:+ err))
| LinkedAndStripped stampMap importcfgName goargs :
    loadStampFiles E (stamps fl) ∅ = inr stampMap ->
    importcfgResult = inr importcfgName ->
    Forall (parses (packagePath fl)) (xstamps fl) ->
    Forall (parses (packagePath fl)) (xdefs fl) ->
    goargs = toolArguments (goTool E ge "link") importcfgName stampMap
               fl toolArgs ->
    runCommand E ge goargs = None ->
    buildmode fl = "c-archive" ->
    stripArMetadata E (outFile fl) = None ->
    LinkExit [importcfgCall; RunCommand goargs;
              StripArMetadata (outFile fl); Remove importcfgName] None.

End ExitPaths.

(** ** A concrete run: the end-to-end scenario of the specification *)

Module Demo.

Definition stampFile : string :=
  "BUILD_USER alice" +:+ LF +:+ "BUILD_HOST" +:+ LF.

(** A second stamp file, declared later, that redefines BUILD_USER. *)
Definition stampFile2 : string :=
  "BUILD_USER bob" +:+ LF +:+ "BUILD_SCM 1a2b3c" +:+ LF.

Definition flags : LinkFlags :=
  {| main := "a.o"; packagePath := "pkg/app"; outFile := "out/lib.a";
     archives := [Archive "lbl" "pkg/x" "/tmp/x.a"];
     packageList := "packages.txt"; buildmode := "c-archive";
     xdefs := ["pkg/app.Name=demo"];
     xstamps := ["pkg/x.Version=BUILD_USER"; "pkg/x.Commit=BUILD_SCM"];
     stamps := ["stamp.txt"];
     packageConflictIsError := false |}.

(** [toolOk] and [stripOk] choose whether the external tool and the
    archive post-processing succeed. *)
Definition env (flags : LinkFlags) (goos : string)
    (toolOk stripOk : bool) : Env unit :=
  {| readParamsFiles := fun args => inr args;
     splitArgs := fun args => (args, ["-s"; "-w"]);
     flagsParse := fun _ _ => inr (flags, tt);
     checkFlags := fun _ => None;
     installSuffix := fun _ => "";
     goTool := fun _ tool => ["go"; "tool"; tool];
     runCommand := fun _ _ => if toolOk then None else Some "exit status 1";
     GOOS := goos;
     abs := fun path => "/work/" +:+ path;
     filepath_Dir := fun _ => "/work/out";
     ReadFile := fun name =>
       if String.eqb name "stamp.txt" then inr stampFile
       else if String.eqb name "stamp2.txt" then inr stampFile2
       else inl "no such file";
     buildImportcfgFileForLink := fun _ _ _ _ _ => inr "/tmp/importcfg";
     stripArMetadata := fun _ =>
       if stripOk then None else Some "bad archive" |}.

(** The same build with a direct request that has no '.'. *)
Definition badFlags : LinkFlags :=
  {| main := "a.o"; packagePath := "pkg/app"; outFile := "out/lib.a";
     archives := [Archive "lbl" "pkg/x" "/tmp/x.a"];
     packageList := "packages.txt"; buildmode := "c-archive";
     xdefs := ["Name=demo"];
     xstamps := ["pkg/x.Version=BUILD_USER"];
     stamps := ["stamp.txt"];
     packageConflictIsError := false |}.

(** The same build with a stamp file that does not exist declared
    between the two that do. *)
Definition missingStampFlags : LinkFlags :=
  {| main := "a.o"; packagePath := "pkg/app"; outFile := "out/lib.a";
     archives := [Archive "lbl" "pkg/x" "/tmp/x.a"];
     packageList := "packages.txt"; buildmode := "c-archive";
     xdefs := ["pkg/app.Name=demo"];
     xstamps := ["pkg/x.Version=BUILD_USER"];
     stamps := ["stamp.txt"; "missing.txt"; "stamp2.txt"];
     packageConflictIsError := false |}.

Definition built : Event :=
  BuildImportcfgFileForLink [Archive "lbl" "pkg/x" "/tmp/x.a"]
    "packages.txt" "" "/work/out" false.

Definition expectedArgs : list string :=
  ["go"; "tool"; "link"; "-importcfg"; "/tmp/importcfg";
   "-X"; "pkg/x.Version=alice"; "-X"; "main.Name=demo";
   "-buildmode"; "c-archive"; "-o"; "/work/out/lib.a";
   "-s"; "-w"; "/work/a.o"].

End Demo.

(** * Properties *)

Example parseXdef_plain :
  parseXdef "" "foo/bar.Sym=val" = inr ("foo/bar", "Sym", "val").
Proof. reflexivity. Qed.

Example parseXdef_own_package :
  parseXdef "bar" "bar.Sym=val" = inr ("main", "Sym", "val").
Proof. reflexivity. Qed.

Example parseXdef_dotted_package :
  parseXdef "" "example.com/m/v2.Sym=1.2.3" =
    inr ("example.com/m/v2", "Sym", "1.2.3").
Proof. reflexivity. Qed.

Example parseXdef_without_eq :
  parseXdef "" "foo.Sym" =
    inl "-X or -Xstamp flag does not contain '=': foo.Sym".
Proof. reflexivity. Qed.

Example SplitN_key_value :
  SplitN "BUILD_TIME Mon Jan 2" " " 2 = ["BUILD_TIME"; "Mon Jan 2"].
Proof. reflexivity. Qed.

Example SplitN_leading_space : SplitN " v" " " 2 = [""; "v"].
Proof. reflexivity. Qed.

Example scanAll_lines :
  scanAll ("a 1" +:+ String "013" LF +:+ "b" +:+ LF +:+ "c 3") =
    ["a 1"; "b"; "c 3"].
Proof. reflexivity. Qed.

Example scanAll_empty : scanAll "" = [].
Proof. reflexivity. Qed.

Example fileTable_demo :
  fileTable Demo.stampFile = {[ "BUILD_USER" := "alice"; "BUILD_HOST" := "" ]}.
Proof. vm_compute. reflexivity. Qed.

Example demo_link_linux :
  link (Demo.env Demo.flags "linux" true true) [] =
    ([Demo.built;
      RunCommand Demo.expectedArgs;
      StripArMetadata "/work/out/lib.a";
      Remove "/tmp/importcfg"], None).
Proof. vm_compute. reflexivity. Qed.

(** ** Facts about the string primitives *)

Section StringFacts.

Lemma len_nonneg s : 0 <= len s.
Proof. unfold len. lia. Qed.

Lemma len_String a s : len (String a s) = len s + 1.
Proof. unfold len. cbn [String.length]. lia. Qed.

(** The two equations of string concatenation. *)
Lemma append_empty (b : string) : "" +:+ b = b.
Proof. reflexivity. Qed.

Lemma append_String c (a b : string) :
  String c a +:+ b = String c (a +:+ b).
Proof. reflexivity. Qed.

Lemma append_assoc (a b c : string) : (a +:+ b) +:+ c = a +:+ (b +:+ c).
Proof.
  induction a as [|x a IH]; rewrite ?append_empty, ?append_String; [done|].
  by rewrite IH.
Qed.

Lemma length_append (a b : string) :
  String.length (a +:+ b) = (String.length a + String.length b)%nat.
Proof.
  induction a as [|x a IH]; rewrite ?append_empty, ?append_String; [done|].
  cbn [String.length]. by rewrite IH.
Qed.

Lemma len_app a b : len (a +:+ b) = len a + len b.
Proof.
  induction a as [|c a IH]; rewrite ?append_empty, ?append_String.
  - change (len "") with 0. lia.
  - rewrite !len_String, IH. lia.
Qed.

Lemma IndexByte_range s c : -1 <= IndexByte s c < len s.
Proof.
  induction s as [|a s IH]; cbn [IndexByte].
  - unfold len; cbn; lia.
  - rewrite len_String. destruct (Ascii.eqb a c).
    + pose proof (len_nonneg s). lia.
    + destruct (Z.ltb_spec (IndexByte s c) 0); lia.
Qed.

Lemma LastIndexByte_range s c : -1 <= LastIndexByte s c < len s.
Proof.
  induction s as [|a s IH]; cbn [LastIndexByte].
  - unfold len; cbn; lia.
  - rewrite len_String. pose proof (len_nonneg s).
    destruct (Z.leb_spec 0 (LastIndexByte s c)); [lia|].
    destruct (Ascii.eqb a c); lia.
Qed.

Lemma IndexByte_absent s c : has_byte c s = false -> IndexByte s c = -1.
Proof.
  induction s as [|a s IH]; cbn [IndexByte has_byte]; [done|].
  intros [Ha Hs]%orb_false_iff. rewrite Ha, (IH Hs). done.
Qed.

Lemma IndexByte_present s c : has_byte c s = true -> 0 <= IndexByte s c.
Proof.
  induction s as [|a s IH]; cbn [IndexByte has_byte]; [done|].
  destruct (Ascii.eqb a c); cbn [orb]; [lia|].
  intros Hs. specialize (IH Hs).
  destruct (Z.ltb_spec (IndexByte s c) 0); lia.
Qed.

Lemma LastIndexByte_absent s c :
  has_byte c s = false -> LastIndexByte s c = -1.
Proof.
  induction s as [|a s IH]; cbn [LastIndexByte has_byte]; [done|].
  intros [Ha Hs]%orb_false_iff. rewrite Ha, (IH Hs). done.
Qed.

Lemma LastIndexByte_present s c :
  has_byte c s = true -> 0 <= LastIndexByte s c.
Proof.
  induction s as [|a s IH]; cbn [LastIndexByte has_byte]; [done|].
  destruct (Z.leb_spec 0 (LastIndexByte s c)); [lia|].
  destruct (Ascii.eqb a c) eqn:Ha; cbn [orb]; [lia|].
  intros Hs. specialize (IH Hs). lia.
Qed.

(** The first [c] of [a ++ c :: b] is right after [a] when [a] has none. *)
Lemma IndexByte_app a c b :
  has_byte c a = false -> IndexByte (a +:+ String c b) c = len a.
Proof.
  induction a as [|x a IH]; rewrite ?append_empty, ?append_String; cbn [IndexByte has_byte].
  - intros _. rewrite Ascii.eqb_refl. done.
  - intros [Hx Ha]%orb_false_iff. rewrite Hx, (IH Ha), len_String.
    pose proof (len_nonneg a).
    destruct (Z.ltb_spec (len a) 0); lia.
Qed.

(** The last [c] of [a ++ c :: b] is right after [a] when [b] has none. *)
Lemma LastIndexByte_app a c b :
  has_byte c b = false -> LastIndexByte (a +:+ String c b) c = len a.
Proof.
  intros Hb. induction a as [|x a IH]; rewrite ?append_empty, ?append_String; cbn [LastIndexByte].
  - rewrite (LastIndexByte_absent _ _ Hb), Ascii.eqb_refl. done.
  - rewrite IH, len_String. pose proof (len_nonneg a).
    destruct (Z.leb_spec 0 (len a)); lia.
Qed.

Lemma substring_0_app a b :
  substring 0 (String.length a) (a +:+ b) = a.
Proof.
  induction a as [|x a IH]; rewrite ?append_empty, ?append_String; cbn [String.length substring].
  - destruct b; done.
  - by rewrite IH.
Qed.

Lemma substring_skip_app a b n :
  substring (String.length a) n (a +:+ b) = substring 0 n b.
Proof. induction a as [|x a IH]; rewrite ?append_empty, ?append_String; cbn [String.length substring]; done. Qed.

Lemma substring_0_all s : substring 0 (String.length s) s = s.
Proof. induction s as [|x s IH]; cbn; [done|by rewrite IH]. Qed.

Lemma length_substring n m s :
  String.length (substring n m s) = Nat.min m (String.length s - n).
Proof.
  revert n m. induction s as [|x s IH]; intros [|n] [|m];
    cbn [substring String.length]; rewrite ?IH; lia.
Qed.

Lemma slice_to_app a b : slice_to (a +:+ b) (len a) = a.
Proof.
  unfold slice_to, slice, len. rewrite Z.sub_0_r, Nat2Z.id.
  change (Z.to_nat 0) with 0%nat. apply substring_0_app.
Qed.

Lemma slice_from_app a c b :
  slice_from (a +:+ String c b) (len a + 1) = b.
Proof.
  unfold slice_from, slice. rewrite len_app, len_String.
  replace (len a + (len b + 1) - (len a + 1)) with (len b) by lia.
  unfold len. rewrite <- (Nat2Z.inj_add _ 1), !Nat2Z.id.
  replace (String.length a + 1)%nat with (String.length (a +:+ String c ""))
    by (rewrite length_append; done).
  replace (a +:+ String c b) with ((a +:+ String c "") +:+ b)
    by (rewrite append_assoc, append_String, append_empty; done).
  rewrite substring_skip_app. apply substring_0_all.
Qed.

Lemma slice_mid_app a c n rest :
  slice (a +:+ String c (n +:+ rest)) (len a + 1) (len a + 1 + len n) = n.
Proof.
  unfold slice.
  replace (len a + 1 + len n - (len a + 1)) with (len n) by lia.
  unfold len. rewrite <- (Nat2Z.inj_add _ 1), !Nat2Z.id.
  replace (String.length a + 1)%nat with (String.length (a +:+ String c ""))
    by (rewrite length_append; done).
  replace (a +:+ String c (n +:+ rest))
    with ((a +:+ String c "") +:+ (n +:+ rest))
    by (rewrite append_assoc, append_String, append_empty; done).
  rewrite substring_skip_app. apply substring_0_app.
Qed.

Lemma slice_mid_app' a c n rest :
  slice (a +:+ String c (n +:+ rest)) (len a + 1) (len a + (len n + 1)) = n.
Proof.
  replace (len a + (len n + 1)) with (len a + 1 + len n) by lia.
  apply slice_mid_app.
Qed.

End StringFacts.

(** ** [parseXdef] *)

Section ParseXdef.

Lemma has_byte_app c a b :
  has_byte c (a +:+ b) = has_byte c a || has_byte c b.
Proof.
  induction a as [|x a IH]; rewrite ?append_empty, ?append_String;
    cbn [has_byte]; [done|].
  rewrite IH. by rewrite orb_assoc.
Qed.

Lemma len_slice_to s hi : 0 <= hi <= len s -> len (slice_to s hi) = hi.
Proof.
  intros H. unfold slice_to, slice, len in *.
  rewrite length_substring. lia.
Qed.

(** The slice expressions of [parseXdef] never leave the string: Go
    does not panic there. *)
Lemma parseXdef_slices_in_range xdef :
  let eq := IndexByte xdef "=" in
  let dot := LastIndexByte (slice_to xdef eq) "." in
  0 <= eq -> 0 <= dot ->
  0 <= dot /\ dot + 1 <= eq /\ eq + 1 <= len xdef.
Proof.
  intros eq dot Heq Hdot.
  pose proof (IndexByte_range xdef "=") as He. fold eq in He.
  pose proof (LastIndexByte_range (slice_to xdef eq) ".") as Hd.
  fold dot in Hd. rewrite len_slice_to in Hd by lia. lia.
Qed.

Lemma parseXdef_no_eq pp xdef :
  has_byte "=" xdef = false ->
  parseXdef pp xdef =
    inl ("-X or -Xstamp flag does not contain '=': " +:+ xdef).
Proof.
  intros H. unfold parseXdef. by rewrite (IndexByte_absent _ _ H).
Qed.

Lemma parseXdef_no_dot pp lhs value :
  has_byte "=" lhs = false -> has_byte "." lhs = false ->
  parseXdef pp (lhs +:+ "=" +:+ value) =
    inl ("-X or -Xstamp flag does not contain '.': "
         +:+ (lhs +:+ "=" +:+ value)).
Proof.
  intros He Hd. unfold parseXdef.
  change ("=" +:+ value) with (String "=" value).
  rewrite (IndexByte_app _ _ _ He).
  pose proof (len_nonneg lhs).
  destruct (Z.ltb_spec (len lhs) 0); [lia|].
  rewrite slice_to_app, (LastIndexByte_absent _ _ Hd). done.
Qed.

Lemma parseXdef_split pp pkg name value :
  has_byte "=" pkg = false -> has_byte "=" name = false ->
  has_byte "." name = false ->
  parseXdef pp (pkg +:+ "." +:+ name +:+ "=" +:+ value) =
    inr (if String.eqb pkg pp then "main" else pkg, name, value).
Proof.
  intros Hp Hn Hd.
  change ("=" +:+ value) with (String "=" value).
  change ("." +:+ name +:+ String "=" value)
    with (String "." (name +:+ String "=" value)).
  set (lhs := pkg +:+ String "." name).
  set (xdef := pkg +:+ String "." (name +:+ String "=" value)).
  assert (Hx : xdef = lhs +:+ String "=" value)
    by (unfold xdef, lhs; rewrite append_assoc, append_String; done).
  assert (He : has_byte "=" lhs = false)
    by (unfold lhs; rewrite has_byte_app; cbn [has_byte];
        rewrite Hp, Hn; done).
  assert (Hll : len lhs = len pkg + (len name + 1))
    by (unfold lhs; rewrite len_app, len_String; lia).
  assert (E1 : IndexByte xdef "=" = len lhs)
    by (rewrite Hx; apply IndexByte_app, He).
  assert (E2 : slice_to xdef (len lhs) = lhs)
    by (rewrite Hx; apply slice_to_app).
  assert (E3 : LastIndexByte lhs "." = len pkg)
    by (apply LastIndexByte_app, Hd).
  assert (E4 : slice_to xdef (len pkg) = pkg) by apply slice_to_app.
  assert (E5 : slice xdef (len pkg + 1) (len lhs) = name)
    by (rewrite Hll; apply slice_mid_app').
  assert (E6 : slice_from xdef (len lhs + 1) = value)
    by (rewrite Hx; apply slice_from_app).
  pose proof (len_nonneg lhs). pose proof (len_nonneg pkg).
  unfold parseXdef. rewrite E1.
  destruct (Z.ltb_spec (len lhs) 0); [lia|].
  rewrite E2, E3.
  destruct (Z.ltb_spec (len pkg) 0); [lia|].
  rewrite E4, E5, E6. done.
Qed.

End ParseXdef.

Section Cuts.

Lemma first_split c s :
  has_byte c s = true ->
  exists a b, s = a +:+ String c b /\ has_byte c a = false.
Proof.
  induction s as [|x s IH]; cbn [has_byte]; [done|].
  destruct (Ascii.eqb x c) eqn:Hx; cbn [orb].
  - intros _. apply Ascii.eqb_eq in Hx as ->. by exists "", s.
  - intros (a & b & -> & Ha)%IH. exists (String x a), b.
    split; [done|]. cbn [has_byte]. by rewrite Hx, Ha.
Qed.

Lemma last_split c s :
  has_byte c s = true ->
  exists a b, s = a +:+ String c b /\ has_byte c b = false.
Proof.
  induction s as [|x s IH]; cbn [has_byte]; [done|].
  destruct (has_byte c s) eqn:Hs.
  - intros _. destruct (IH eq_refl) as (a & b & -> & Hb).
    by exists (String x a), b.
  - rewrite orb_false_r. intros ->%Ascii.eqb_eq. by exists "", s.
Qed.

(** Every request is in exactly one of the three shapes that
    [parseXdef] tells apart. *)
Lemma xdef_shapes xdef :
  has_byte "=" xdef = false \/
  (exists lhs value,
      xdef = lhs +:+ "=" +:+ value /\ has_byte "=" lhs = false /\
      has_byte "." lhs = false) \/
  (exists pkg name value,
      xdef = pkg +:+ "." +:+ name +:+ "=" +:+ value /\
      has_byte "=" pkg = false /\ has_byte "=" name = false /\
      has_byte "." name = false).
Proof.
  destruct (has_byte "=" xdef) eqn:He; [right|by left].
  destruct (first_split _ _ He) as (lhs & value & -> & Hl).
  destruct (has_byte "." lhs) eqn:Hd.
  - right. destruct (last_split _ _ Hd) as (pkg & name & -> & Hn).
    exists pkg, name, value. rewrite has_byte_app in Hl.
    apply orb_false_iff in Hl as [Hp Hn']. cbn [has_byte] in Hn'.
    split; [|done].
    rewrite append_assoc. done.
  - left. by exists lhs, value.
Qed.

End Cuts.

(** ** Claims about [parseXdef] *)

(** C1, as the code has it: [parseXdef] cuts a request at its FIRST '='
    into a left-hand side and a value, and cuts the left-hand side at
    its last '.' into a package path and a symbol name.  A request with
    no '=' fails with the error naming it; so does a request with no '.'
    before the first '='.  Every request is in one of these three
    shapes. *)
Theorem parseXdef_cuts_at_first_eq (pp xdef : string) :
  (has_byte "=" xdef = false ->
   parseXdef pp xdef =
     inl ("-X or -Xstamp flag does not contain '=': " +:+ xdef)) /\
  (forall lhs value,
     xdef = lhs +:+ "=" +:+ value ->
     has_byte "=" lhs = false -> has_byte "." lhs = false ->
     parseXdef pp xdef =
       inl ("-X or -Xstamp flag does not contain '.': " +:+ xdef)) /\
  (forall pkg name value,
     xdef = pkg +:+ "." +:+ name +:+ "=" +:+ value ->
     has_byte "=" pkg = false -> has_byte "=" name = false ->
     has_byte "." name = false ->
     parseXdef pp xdef =
       inr (if String.eqb pkg pp then "main" else pkg, name, value)) /\
  (has_byte "=" xdef = false \/
   (exists lhs value,
       xdef = lhs +:+ "=" +:+ value /\ has_byte "=" lhs = false /\
       has_byte "." lhs = false) \/
   (exists pkg name value,
       xdef = pkg +:+ "." +:+ name +:+ "=" +:+ value /\
       has_byte "=" pkg = false /\ has_byte "=" name = false /\
       has_byte "." name = false)).
Proof.
  split; [apply parseXdef_no_eq|].
  split; [intros lhs value ->; apply parseXdef_no_dot|].
  split; [intros pkg name value ->; apply parseXdef_split|].
  apply xdef_shapes.
Qed.

(** The example of C1, obtained from the theorem. *)
Lemma parseXdef_cuts_at_first_eq_witness :
  parseXdef "" "foo/bar.Sym=val" = inr ("foo/bar", "Sym", "val").
Proof.
  exact (proj1 (proj2 (proj2 (parseXdef_cuts_at_first_eq "" "foo/bar.Sym=val")))
           "foo/bar" "Sym" "val" eq_refl eq_refl eq_refl eq_refl).
Defined.

(** C1 as stated, refuted: with two '=' in the request the code cuts at
    the first one, the stated rule at the last one; and a request whose
    only '.' lies between the two '=' is rejected by the code. *)
Lemma parseXdef_last_eq_refuted :
  parseXdef "" "a.b=c=d" = inr ("a", "b", "c=d") /\
  parseXdef_lastEq "" "a.b=c=d" = inr ("a", "b=c", "d") /\
  parseXdef "" "a=b.c=d" =
    inl "-X or -Xstamp flag does not contain '.': a=b.c=d" /\
  parseXdef_lastEq "" "a=b.c=d" = inr ("a=b", "c", "d") /\
  ~ (forall pp xdef, parseXdef pp xdef = parseXdef_lastEq pp xdef).
Proof.
  repeat split; try reflexivity.
  intros H. specialize (H "" "a.b=c=d"). vm_compute in H. discriminate H.
Qed.



(** C10: with [-p] left at its declared default, the empty string, a
    request whose package part is empty (the '.' comes first) is
    forwarded under the package "main". *)
Theorem empty_package_is_main_by_default (name value : string) :
  has_byte "=" name = false -> has_byte "." name = false ->
  packagePath linkFlagDefaults = "" /\
  parseXdef (packagePath linkFlagDefaults) ("." +:+ name +:+ "=" +:+ value) =
    inr ("main", name, value).
Proof.
  intros Hn Hd. split; [done|].
  exact (parseXdef_split "" "" name value eq_refl Hn Hd).
Qed.

Lemma empty_package_is_main_by_default_witness :
  parseXdef (packagePath linkFlagDefaults) ".Sym=val" =
    inr ("main", "Sym", "val").
Proof.
  exact (proj2 (empty_package_is_main_by_default "Sym" "val" eq_refl eq_refl)).
Defined.

(** ** The two substitution loops *)

Section Loops.

Variable pp : string.
Variable stampMap : gmap string string.

Lemma xstampsLoop_app xs1 xs2 goargs :
  xstampsLoop pp stampMap (xs1 ++ xs2) goargs =
    match xstampsLoop pp stampMap xs1 goargs with
    | inl err => inl err
    | inr goargs1 => xstampsLoop pp stampMap xs2 goargs1
    end.
Proof.
  revert goargs. induction xs1 as [|x xs1 IH]; intros goargs; [done|].
  cbn [app xstampsLoop].
  destruct (parseXdef pp x) as [err|[[pkg name] key]]; [done|].
  destruct (stampMap !! key); apply IH.
Qed.

Lemma xstampsLoop_inr xs goargs goargs' :
  xstampsLoop pp stampMap xs goargs = inr goargs' ->
  Forall (parses pp) xs /\
  goargs' = goargs ++ flat_map (xstampArgs pp stampMap) xs.
Proof.
  revert goargs. induction xs as [|x xs IH]; intros goargs.
  - cbn. intros [= <-]. by rewrite app_nil_r.
  - cbn [xstampsLoop flat_map]. unfold xstampArgs at 1, parses at 1.
    destruct (parseXdef pp x) as [err|[[pkg name] key]] eqn:Hx; [done|].
    destruct (stampMap !! key) as [value|]; intros [Hall ->]%IH;
      (split; [constructor; [unfold parses; rewrite Hx; eauto|done]|]).
    + by rewrite <- app_assoc.
    + done.
Qed.

Lemma xstampsLoop_parses xs goargs :
  Forall (parses pp) xs ->
  xstampsLoop pp stampMap xs goargs =
    inr (goargs ++ flat_map (xstampArgs pp stampMap) xs).
Proof.
  intros Hall. revert goargs.
  induction Hall as [|x xs [[[pkg name] key] Hx] _ IH]; intros goargs.
  - cbn. by rewrite app_nil_r.
  - cbn [xstampsLoop flat_map]. unfold xstampArgs at 1. rewrite Hx.
    destruct (stampMap !! key); rewrite IH; [by rewrite <- app_assoc|done].
Qed.

Lemma xdefsLoop_inr xs goargs goargs' :
  xdefsLoop pp xs goargs = inr goargs' ->
  Forall (parses pp) xs /\
  goargs' = goargs ++ flat_map (xdefArgs pp) xs.
Proof.
  revert goargs. induction xs as [|x xs IH]; intros goargs.
  - cbn. intros [= <-]. by rewrite app_nil_r.
  - cbn [xdefsLoop flat_map]. unfold xdefArgs at 1.
    destruct (parseXdef pp x) as [err|[[pkg name] value]] eqn:Hx; [done|].
    intros [Hall ->]%IH.
    split; [constructor; [unfold parses; rewrite Hx; eauto|done]|].
    by rewrite <- app_assoc.
Qed.

Lemma xdefsLoop_parses xs goargs :
  Forall (parses pp) xs ->
  xdefsLoop pp xs goargs = inr (goargs ++ flat_map (xdefArgs pp) xs).
Proof.
  intros Hall. revert goargs.
  induction Hall as [|x xs [[[pkg name] value] Hx] _ IH]; intros goargs.
  - cbn. by rewrite app_nil_r.
  - cbn [xdefsLoop flat_map]. unfold xdefArgs at 1. rewrite Hx, IH.
    by rewrite <- app_assoc.
Qed.

End Loops.

(** C2: an indirect request that parses and whose key is not in the
    merged stamp table appends nothing and raises no error: alone it
    returns the argument list as it was, and among other requests the
    loop runs as if it had not been declared.  When the key is in the
    table the request appends exactly the "-X" flag and one
    "pkg.sym=value" argument built with the value found in the table,
    at its place in the declaration order: after what the requests
    before it appended and before what the requests after it append. *)
Theorem xstamp_dropped_or_forwarded_once
    (pp : string) (stampMap : gmap string string)
    (before after : list string) (xdef pkg name key : string)
    (goargs : list string) :
  parseXdef pp xdef = inr (pkg, name, key) ->
  (stampMap !! key = None ->
   xstampsLoop pp stampMap [xdef] goargs = inr goargs /\
   xstampsLoop pp stampMap (before ++ xdef :: after) goargs =
     xstampsLoop pp stampMap (before ++ after) goargs) /\
  (forall value, stampMap !! key = Some value ->
   xstampsLoop pp stampMap [xdef] goargs =
     inr (goargs ++ ["-X"; pkg +:+ "." +:+ name +:+ "=" +:+ value]) /\
   xstampsLoop pp stampMap (before ++ xdef :: after) goargs =
     match xstampsLoop pp stampMap before goargs with
     | inl err => inl err
     | inr goargs1 =>
         xstampsLoop pp stampMap after
           (goargs1 ++ ["-X"; pkg +:+ "." +:+ name +:+ "=" +:+ value])
     end) /\
  (Forall (parses pp) before -> Forall (parses pp) after ->
   exists front back,
     xstampsLoop pp stampMap before goargs = inr (goargs ++ front) /\
     (forall goargs', xstampsLoop pp stampMap after goargs'
                      = inr (goargs' ++ back)) /\
     (stampMap !! key = None ->
      xstampsLoop pp stampMap (before ++ xdef :: after) goargs =
        inr (goargs ++ front ++ back)) /\
     (forall value, stampMap !! key = Some value ->
      xstampsLoop pp stampMap (before ++ xdef :: after) goargs =
        inr (goargs ++ front
               ++ ["-X"; pkg +:+ "." +:+ name +:+ "=" +:+ value]
               ++ back))).
Proof.
  intros Hx. split; [|split].
  - intros Hm. split.
    + cbn [xstampsLoop]. by rewrite Hx, Hm.
    + rewrite !xstampsLoop_app. cbn [xstampsLoop]. by rewrite Hx, Hm.
  - intros value Hm. split.
    + cbn [xstampsLoop]. by rewrite Hx, Hm.
    + rewrite xstampsLoop_app. cbn [xstampsLoop]. by rewrite Hx, Hm.
  - intros Hbefore Hafter.
    exists (flat_map (xstampArgs pp stampMap) before),
           (flat_map (xstampArgs pp stampMap) after).
    split; [by apply xstampsLoop_parses|].
    split; [intros goargs'; by apply xstampsLoop_parses|].
    split.
    + intros Hm. rewrite xstampsLoop_app, xstampsLoop_parses by done.
      cbn [xstampsLoop]. rewrite Hx, Hm, xstampsLoop_parses by done.
      by rewrite <- app_assoc.
    + intros value Hm. rewrite xstampsLoop_app, xstampsLoop_parses by done.
      cbn [xstampsLoop]. rewrite Hx, Hm, xstampsLoop_parses by done.
      by rewrite <- !app_assoc.
Qed.

Lemma xstamp_dropped_or_forwarded_once_witness :
  xstampsLoop "" {[ "BUILD_USER" := "alice" ]}
    ["pkg/x.Commit=BUILD_SCM"] ["link"] = inr ["link"] /\
  xstampsLoop "" {[ "BUILD_USER" := "alice" ]}
    ["pkg/x.Version=BUILD_USER"] ["link"] =
    inr ["link"; "-X"; "pkg/x.Version=alice"] /\
  xstampsLoop "" {[ "BUILD_USER" := "alice" ]}
    ["pkg/x.Version=BUILD_USER"; "pkg/x.Commit=BUILD_SCM";
     "pkg/y.User=BUILD_USER"] ["link"] =
    inr ["link"; "-X"; "pkg/x.Version=alice"; "-X"; "pkg/y.User=alice"].
Proof.
  split; [|split].
  - exact (proj1 (proj1 (xstamp_dropped_or_forwarded_once
             "" {[ "BUILD_USER" := "alice" ]} [] []
             "pkg/x.Commit=BUILD_SCM" "pkg/x" "Commit" "BUILD_SCM" ["link"]
             eq_refl) eq_refl)).
  - exact (proj1 (proj1 (proj2 (xstamp_dropped_or_forwarded_once
             "" {[ "BUILD_USER" := "alice" ]} [] []
             "pkg/x.Version=BUILD_USER" "pkg/x" "Version" "BUILD_USER"
             ["link"] eq_refl)) "alice" eq_refl)).
  - destruct (proj2 (proj2 (xstamp_dropped_or_forwarded_once
                "" {[ "BUILD_USER" := "alice" ]}
                ["pkg/x.Version=BUILD_USER"] ["pkg/y.User=BUILD_USER"]
                "pkg/x.Commit=BUILD_SCM" "pkg/x" "Commit" "BUILD_SCM"
                ["link"] eq_refl)))
      as (front & back & Hfront & Hback & Habsent & _).
    + repeat constructor. by exists ("pkg/x", "Version", "BUILD_USER").
    + repeat constructor. by exists ("pkg/y", "User", "BUILD_USER").
    + refine (eq_trans (Habsent eq_refl) _).
      specialize (Hback []). vm_compute in Hfront, Hback.
      injection Hfront as <-. injection Hback as <-. reflexivity.
Defined.

(** ** The whole action *)

Example demo_link_darwin :
  link (Demo.env Demo.flags "darwin" true true) [] =
    ([Demo.built;
      RunCommand
        ["go"; "tool"; "link"; "-importcfg"; "/tmp/importcfg";
         "-X"; "pkg/x.Version=alice"; "-X"; "main.Name=demo";
         "-buildmode"; "c-archive"; "-o"; "out/lib.a";
         "-s"; "-w"; "/work/a.o"];
      StripArMetadata "out/lib.a";
      Remove "/tmp/importcfg"], None).
Proof. vm_compute. reflexivity. Qed.

Example demo_link_tool_fails :
  link (Demo.env Demo.flags "linux" false true) [] =
    ([Demo.built; RunCommand Demo.expectedArgs; Remove "/tmp/importcfg"],
     Some "exit status 1").
Proof. vm_compute. reflexivity. Qed.

Example demo_link_strip_fails :
  link (Demo.env Demo.flags "linux" true false) [] =
    ([Demo.built; RunCommand Demo.expectedArgs;
      StripArMetadata "/work/out/lib.a"; Remove "/tmp/importcfg"],
     Some "error stripping archive metadata: bad archive").
Proof. vm_compute. reflexivity. Qed.

Example demo_link_bad_request :
  link (Demo.env Demo.badFlags "linux" true true) [] =
    ([Demo.built; Remove "/tmp/importcfg"],
     Some "-X or -Xstamp flag does not contain '.': Name=demo").
Proof. vm_compute. reflexivity. Qed.

Section LinkFacts.

Context {goenv : Type}.
Variable E : Env goenv.

(** Case analysis along the control flow of [link], once the
    arguments are parsed. *)
Ltac link_paths Hargs Hlink :=
  unfold link in Hlink; rewrite Hargs in Hlink;
  cbv zeta in Hlink; unfold defer in Hlink;
  repeat
    match type of Hlink with
    | context [match ?scrutinee with _ => _ end] =>
        lazymatch scrutinee with
        | loadStampFiles _ _ _ => destruct scrutinee eqn:Hstamps
        | buildImportcfgFileForLink _ _ _ _ _ _ =>
            destruct scrutinee eqn:Hbuild
        | xstampsLoop _ _ _ _ => destruct scrutinee eqn:Hxstamps
        | xdefsLoop _ _ _ => destruct scrutinee eqn:Hxdefs
        | runCommand _ _ _ => destruct scrutinee eqn:Hrun
        | stripArMetadata _ _ => destruct scrutinee eqn:Hstrip
        | String.eqb (buildmode _) "c-archive" =>
            destruct scrutinee eqn:Hmode
        end
    end;
  cbn [fst snd app] in Hlink;
  injection Hlink as <- <-.

(** The list that lines 102-144 build is the specified one. *)
Lemma goargs_shape (prefix : list string) importcfgName stampMap fl
    (toolArgs : list string) :
  toolArguments prefix importcfgName stampMap fl toolArgs =
    (((if negb (String.eqb (buildmode fl) "")
       then (((prefix ++ ["-importcfg"; importcfgName])
                ++ flat_map (xstampArgs (packagePath fl) stampMap)
                     (xstamps fl))
               ++ flat_map (xdefArgs (packagePath fl)) (xdefs fl))
            ++ ["-buildmode"; buildmode fl]
       else ((prefix ++ ["-importcfg"; importcfgName])
               ++ flat_map (xstampArgs (packagePath fl) stampMap)
                    (xstamps fl))
              ++ flat_map (xdefArgs (packagePath fl)) (xdefs fl))
        ++ ["-o"; outFile fl]) ++ toolArgs) ++ [main fl].
Proof.
  unfold toolArguments.
  destruct (String.eqb (buildmode fl) ""); cbn [negb];
    rewrite <- ?app_assoc; reflexivity.
Qed.

Lemma parseArguments_fails args err :
  parseArguments E args = inl err -> link E args = ([], Some err).
Proof. intros H. unfold link. by rewrite H. Qed.

(** [link] leaves by one of the exit paths. *)
Lemma link_exit_paths args fl0 ge toolArgs calls err :
  parseArguments E args = inr (fl0, ge, toolArgs) ->
  link E args = (calls, err) ->
  LinkExit E (normalizePaths E fl0) ge toolArgs calls err.
Proof.
  intros Hargs Hlink. link_paths Hargs Hlink.
  all: try (apply xstampsLoop_inr in Hxstamps as [Hxs ->]).
  all: try (apply xdefsLoop_inr in Hxdefs as [Hxd ->]).
  all: try first [ apply String.eqb_eq in Hmode
                 | apply String.eqb_neq in Hmode ].
  all: pose proof (goargs_shape (goTool E ge "link")) as Hshape.
  all: set (fl := normalizePaths E fl0) in *.
  - exact (StampReadFailed E fl ge toolArgs e Hstamps).
  - exact (ImportcfgFailed E fl ge toolArgs g e Hstamps Hbuild).
  - exact (XstampMalformed E fl ge toolArgs g s e Hstamps Hbuild Hxstamps).
  - exact (XdefMalformed E fl ge toolArgs g s _ e Hstamps Hbuild Hxs Hxdefs).
  - exact (ToolFailed E fl ge toolArgs g s _ e Hstamps Hbuild Hxs Hxd
             (eq_sym (Hshape s g fl toolArgs)) Hrun).
  - exact (StripFailed E fl ge toolArgs g s _ e Hstamps Hbuild Hxs Hxd
             (eq_sym (Hshape s g fl toolArgs)) Hrun Hmode Hstrip).
  - exact (LinkedAndStripped E fl ge toolArgs g s _ Hstamps Hbuild Hxs Hxd
             (eq_sym (Hshape s g fl toolArgs)) Hrun Hmode Hstrip).
  - exact (Linked E fl ge toolArgs g s _ Hstamps Hbuild Hxs Hxd
             (eq_sym (Hshape s g fl toolArgs)) Hrun Hmode).
Qed.

Lemma strip_message_distinct (err : error) :
  "error stripping archive metadata: " +:+ err <> err.
Proof.
  intros H. apply (f_equal String.length) in H.
  rewrite length_append in H. cbn in H. lia.
Qed.

(** C3: on a successful run the external tool is invoked once, with the
    toolchain prefix, "-importcfg" and the descriptor path, the resolved
    -Xstamp substitutions in declaration order, the -X substitutions in
    declaration order, "-buildmode" and the mode exactly when a
    non-empty mode was declared, "-o" and the output path, the
    pass-through arguments as given, and the main-unit path last. *)
Theorem link_argument_order args calls :
  link E args = (calls, None) ->
  exists fl0 ge toolArgs stampMap importcfgName,
    let fl := normalizePaths E fl0 in
    let goargs :=
      goTool E ge "link" ++ ["-importcfg"; importcfgName]
        ++ flat_map (xstampArgs (packagePath fl) stampMap) (xstamps fl)
        ++ flat_map (xdefArgs (packagePath fl)) (xdefs fl)
        ++ (if String.eqb (buildmode fl) "" then []
            else ["-buildmode"; buildmode fl])
        ++ ["-o"; outFile fl] ++ toolArgs ++ [main fl] in
    parseArguments E args = inr (fl0, ge, toolArgs) /\
    loadStampFiles E (stamps fl) ∅ = inr stampMap /\
    importcfgResult E fl ge = inr importcfgName /\
    Forall (parses (packagePath fl)) (xstamps fl) /\
    Forall (parses (packagePath fl)) (xdefs fl) /\
    runCommand E ge goargs = None /\
    calls = [importcfgCall E fl ge; RunCommand goargs]
              ++ (if String.eqb (buildmode fl) "c-archive"
                  then [StripArMetadata (outFile fl)] else [])
              ++ [Remove importcfgName].
Proof.
  intros Hlink.
  destruct (parseArguments E args) as [err|[[fl0 ge] toolArgs]] eqn:Hargs.
  { rewrite (parseArguments_fails _ _ Hargs) in Hlink. discriminate Hlink. }
  pose proof (link_exit_paths _ _ _ _ _ _ Hargs Hlink) as Hexit.
  exists fl0, ge, toolArgs.
  inversion Hexit as
    [ | | | | | stampMap name goargs Hs Hb Hxs Hxd Hg Hrun Hmode
      | | stampMap name goargs Hs Hb Hxs Hxd Hg Hrun Hmode Hstrip ];
    subst; exists stampMap, name; cbv zeta;
    fold (toolArguments (goTool E ge "link") name stampMap
            (normalizePaths E fl0) toolArgs).
  - apply String.eqb_neq in Hmode. rewrite Hmode. done.
  - apply String.eqb_eq in Hmode. rewrite Hmode. done.
Qed.

(** C6: once the import configuration has been created, its removal is
    the last thing [link] does, whatever it returns: after the external
    tool succeeded or failed, after a malformed substitution request,
    after the archive post-processing succeeded or failed. *)
Theorem importcfg_removed_on_every_exit args calls err
    (arcs : list archive) (pkgList suffix dir : string) (conflict : bool)
    (importcfgName : string) :
  link E args = (calls, err) ->
  In (BuildImportcfgFileForLink arcs pkgList suffix dir conflict) calls ->
  buildImportcfgFileForLink E arcs pkgList suffix dir conflict
    = inr importcfgName ->
  exists later,
    calls = BuildImportcfgFileForLink arcs pkgList suffix dir conflict
              :: later ++ [Remove importcfgName] /\
    Forall (fun e => isRemove e = false) later /\
    (forall e, In e later ->
       (exists goargs, e = RunCommand goargs) \/
       (exists path, e = StripArMetadata path)).
Proof.
  intros Hlink Hin Hbuilt.
  destruct (parseArguments E args) as [e|[[fl0 ge] toolArgs]] eqn:Hargs.
  { rewrite (parseArguments_fails _ _ Hargs) in Hlink.
    injection Hlink as <- <-. destruct Hin. }
  pose proof (link_exit_paths _ _ _ _ _ _ Hargs Hlink) as Hexit.
  inversion Hexit; subst; cbn [In] in Hin;
    repeat match goal with
           | H : _ \/ _ |- _ => destruct H as [H|H]
           | H : False |- _ => destruct H
           | H : _ = BuildImportcfgFileForLink _ _ _ _ _ |- _ =>
               try discriminate H;
               unfold importcfgCall in H; injection H as <- <- <- <- <-
           end;
    change (importcfgResult E (normalizePaths E fl0) ge = inr importcfgName)
      in Hbuilt;
    try congruence;
    match goal with
    | H : importcfgResult _ _ _ = inr ?name |- _ =>
        assert (name = importcfgName) as -> by congruence
    end;
    match goal with
    | |- exists later, ?first :: ?rest = _ /\ _ =>
        exists (removelast rest); cbn [removelast]
    end;
    (split; [reflexivity|]);
    (split; [repeat constructor|]);
    intros e; cbn [In]; intuition (subst; eauto).
Qed.

(** C7: the archive post-processing runs once, right after the external
    tool succeeded, when the build mode is "c-archive"; it does not run
    for another build mode, nor when the tool did not succeed.  When it
    fails [link] returns the error "error stripping archive metadata:"
    followed by the cause, which differs from the cause alone, whereas a
    failure of the tool is returned as the tool's own error. *)
Theorem strip_once_iff_c_archive args fl0 ge toolArgs calls err :
  parseArguments E args = inr (fl0, ge, toolArgs) ->
  link E args = (calls, err) ->
  let fl := normalizePaths E fl0 in
  let toolSucceeded :=
    exists goargs,
      In (RunCommand goargs) calls /\ runCommand E ge goargs = None in
  (buildmode fl = "c-archive" -> toolSucceeded ->
   countStrips calls = 1%nat /\
   exists before goargs after,
     calls = before ++ [RunCommand goargs; StripArMetadata (outFile fl)]
               ++ after /\
     runCommand E ge goargs = None) /\
  (buildmode fl <> "c-archive" -> countStrips calls = 0%nat) /\
  (~ toolSucceeded -> countStrips calls = 0%nat) /\
  (forall cause,
     countStrips calls = 1%nat ->
     stripArMetadata E (outFile fl) = Some cause ->
     err = Some ("error stripping archive metadata: " +:+ cause) /\
     err <> Some cause) /\
  (countStrips calls = 1%nat ->
   stripArMetadata E (outFile fl) = None -> err = None) /\
  (forall goargs cause,
     In (RunCommand goargs) calls ->
     runCommand E ge goargs = Some cause ->
     err = Some cause /\ countStrips calls = 0%nat).
Proof.
  intros Hargs Hlink fl toolSucceeded.
  pose proof (link_exit_paths _ _ _ _ _ _ Hargs Hlink) as Hexit.
  fold fl in Hexit. subst toolSucceeded.
  pose proof strip_message_distinct as Hdistinct.
  inversion Hexit; subst calls err; unfold countStrips;
    cbn [List.filter isStrip importcfgCall List.length In].
  all: set (message := "error stripping archive metadata: ") in *.
  all: set (mode := "c-archive") in *.
  all: clearbody message mode.
  all: repeat split; try done.
  all: intros; clear Hlink Hexit Hargs.
  all: repeat match goal with
       | H : exists _, _ |- _ => destruct H
       | H : _ /\ _ |- _ => destruct H
       | H : _ \/ _ |- _ => destruct H
       | H : ~ (exists _, _) |- _ => exfalso; apply H; clear H
       end.
  all: try done.
  all: repeat match goal with
       | H : RunCommand _ = RunCommand _ |- _ => injection H as <-
       | H : StripArMetadata _ = RunCommand _ |- _ => discriminate H
       | H : Remove _ = RunCommand _ |- _ => discriminate H
       | H : BuildImportcfgFileForLink _ _ _ _ _ = RunCommand _ |- _ =>
           discriminate H
       | H1 : ?a = Some _, H2 : ?a = None |- _ =>
           rewrite H1 in H2; discriminate H2
       | H1 : ?a = Some ?x, H2 : ?a = Some ?y |- _ =>
           rewrite H1 in H2; injection H2 as <-
       end.
  all: try done.
  all: try match goal with
       | |- exists before goargs0 after,
              [?a; RunCommand ?g; _; ?r] = _ /\ _ =>
           exists [a], g, [r]; split; [reflexivity|assumption]
       | |- Some (_ +:+ ?cause) <> Some ?cause =>
           let Heq := fresh in
           intros [= Heq]; exact (Hdistinct _ Heq)
       end.
  all: eexists; split; [right; left; reflexivity|eassumption].
Qed.

(** C8: the main-unit path is made absolute on every platform; the
    output path is made absolute unless the platform is "darwin", where
    it is left as given.  These are the paths the run works with: once
    the stamp files are read the import configuration is asked for the
    directory of that output path; once it is built and the requests
    parse the external tool is run with "-o", that output path, the
    pass-through arguments and that main-unit path last; and the archive
    post-processing, when it runs, is given that output path.  No call
    of the run receives another output or main-unit path. *)
Theorem paths_made_absolute args fl0 ge toolArgs calls err :
  parseArguments E args = inr (fl0, ge, toolArgs) ->
  link E args = (calls, err) ->
  let mainPath := abs E (main fl0) in
  let outPath :=
    if String.eqb (GOOS E) "darwin" then outFile fl0
    else abs E (outFile fl0) in
  main (normalizePaths E fl0) = mainPath /\
  outFile (normalizePaths E fl0) = outPath /\
  (forall goargs, In (RunCommand goargs) calls ->
     exists front,
       goargs = front ++ ["-o"; outPath] ++ toolArgs ++ [mainPath]) /\
  (forall arcs pkgList suffix dir conflict,
     In (BuildImportcfgFileForLink arcs pkgList suffix dir conflict) calls ->
     dir = filepath_Dir E outPath) /\
  (forall path, In (StripArMetadata path) calls -> path = outPath) /\
  (forall stampMap,
     loadStampFiles E (stamps fl0) ∅ = inr stampMap ->
     In (BuildImportcfgFileForLink (archives fl0) (packageList fl0)
           (installSuffix E ge) (filepath_Dir E outPath)
           (packageConflictIsError fl0)) calls /\
     forall importcfgName,
       buildImportcfgFileForLink E (archives fl0) (packageList fl0)
         (installSuffix E ge) (filepath_Dir E outPath)
         (packageConflictIsError fl0) = inr importcfgName ->
       Forall (parses (packagePath fl0)) (xstamps fl0) ->
       Forall (parses (packagePath fl0)) (xdefs fl0) ->
       exists front,
         front =
           goTool E ge "link" ++ ["-importcfg"; importcfgName]
             ++ flat_map (xstampArgs (packagePath fl0) stampMap)
                  (xstamps fl0)
             ++ flat_map (xdefArgs (packagePath fl0)) (xdefs fl0)
             ++ (if String.eqb (buildmode fl0) "" then []
                 else ["-buildmode"; buildmode fl0]) /\
         In (RunCommand
               (front ++ ["-o"; outPath] ++ toolArgs ++ [mainPath])) calls /\
         (runCommand E ge
            (front ++ ["-o"; outPath] ++ toolArgs ++ [mainPath]) = None ->
          buildmode fl0 = "c-archive" ->
          In (StripArMetadata outPath) calls)).
Proof.
  intros Hargs Hlink mainPath outPath.
  pose proof (link_exit_paths _ _ _ _ _ _ Hargs Hlink) as Hexit.
  assert (Hmain : main (normalizePaths E fl0) = mainPath) by reflexivity.
  assert (Hout : outFile (normalizePaths E fl0) = outPath).
  { unfold outPath. cbn. by destruct (String.eqb (GOOS E) "darwin"). }
  split; [done|]. split; [done|].
  assert (Hfront : forall prefix name stampMap,
             exists front,
               toolArguments prefix name stampMap (normalizePaths E fl0)
                 toolArgs
               = front ++ ["-o"; outPath] ++ toolArgs ++ [mainPath]).
  { intros prefix name stampMap. unfold toolArguments.
    rewrite Hmain, Hout. eexists. rewrite !app_assoc. reflexivity. }
  assert (Hshape : forall name stampMap,
             toolArguments (goTool E ge "link") name stampMap
               (normalizePaths E fl0) toolArgs
             = (goTool E ge "link" ++ ["-importcfg"; name]
                  ++ flat_map (xstampArgs (packagePath fl0) stampMap)
                       (xstamps fl0)
                  ++ flat_map (xdefArgs (packagePath fl0)) (xdefs fl0)
                  ++ (if String.eqb (buildmode fl0) "" then []
                      else ["-buildmode"; buildmode fl0]))
                 ++ ["-o"; outPath] ++ toolArgs ++ [mainPath]).
  { intros name stampMap. unfold toolArguments. rewrite Hmain, Hout.
    change (packagePath (normalizePaths E fl0)) with (packagePath fl0).
    change (xstamps (normalizePaths E fl0)) with (xstamps fl0).
    change (xdefs (normalizePaths E fl0)) with (xdefs fl0).
    change (buildmode (normalizePaths E fl0)) with (buildmode fl0).
    by rewrite <- !app_assoc. }
  assert (Hcall : importcfgCall E (normalizePaths E fl0) ge =
            BuildImportcfgFileForLink (archives fl0) (packageList fl0)
              (installSuffix E ge) (filepath_Dir E outPath)
              (packageConflictIsError fl0))
    by (unfold importcfgCall; rewrite Hout; reflexivity).
  assert (Hres : importcfgResult E (normalizePaths E fl0) ge =
            buildImportcfgFileForLink E (archives fl0) (packageList fl0)
              (installSuffix E ge) (filepath_Dir E outPath)
              (packageConflictIsError fl0))
    by (unfold importcfgResult; rewrite Hout; reflexivity).
  split; [|split; [|split]].
  - inversion Hexit; subst calls err; rewrite ?Hcall; cbn [In];
      intros g Hin;
      repeat (destruct Hin as [Hin|Hin]; try discriminate Hin);
      try contradiction;
      injection Hin as <-; subst; apply Hfront.
  - inversion Hexit; subst calls err; rewrite ?Hcall; cbn [In];
      intros a p0 s0 d c Hin;
      repeat (destruct Hin as [Hin|Hin]; try discriminate Hin);
      try contradiction;
      by injection Hin as _ _ _ <- _.
  - inversion Hexit; subst calls err; rewrite ?Hcall, ?Hout; cbn [In];
      intros path Hin;
      repeat (destruct Hin as [Hin|Hin]; try discriminate Hin);
      try contradiction;
      by injection Hin as <-.
  - intros stampMap Hload.
    change (stamps fl0) with (stamps (normalizePaths E fl0)) in Hload.
    split.
    + inversion Hexit; subst calls err; rewrite ?Hcall;
        try (left; reflexivity).
      match goal with
      | H : loadStampFiles _ _ _ = inl _ |- _ =>
          rewrite Hload in H; discriminate H
      end.
    + intros name Hbuilt Hxs Hxd. rewrite <- Hres in Hbuilt.
      eexists. split; [reflexivity|].
      rewrite <- (Hshape name stampMap).
      inversion Hexit; subst calls err; rewrite ?Hout;
        repeat match goal with
               | H1 : ?a = inr _, H2 : ?a = inl _ |- _ =>
                   rewrite H1 in H2; discriminate H2
               | H1 : ?a = inr ?x, H2 : ?a = inr ?y |- _ =>
                   rewrite H1 in H2; injection H2 as <-
               | H : xstampsLoop _ _ _ _ = inl _ |- _ =>
                   rewrite (xstampsLoop_parses _ _ _ _ Hxs) in H;
                   discriminate H
               | H : xdefsLoop _ _ _ = inl _ |- _ =>
                   rewrite (xdefsLoop_parses _ _ _ Hxd) in H; discriminate H
               end;
        subst;
        (split; [right; left; reflexivity|]);
        intros Hrun Hmode;
        repeat match goal with
               | H1 : ?a = None, H2 : ?a = Some _ |- _ =>
                   rewrite H1 in H2; discriminate H2
               | H : buildmode _ <> "c-archive" |- _ => destruct (H Hmode)
               end;
        right; right; left; reflexivity.
Qed.

End LinkFacts.


(** The theorems above at the concrete run of [Demo]. *)

Lemma link_argument_order_witness :
  link (Demo.env Demo.flags "linux" true true) [] =
    ([Demo.built; RunCommand Demo.expectedArgs;
      StripArMetadata "/work/out/lib.a"; Remove "/tmp/importcfg"], None) /\
  exists fl0 ge toolArgs stampMap importcfgName,
    parseArguments (Demo.env Demo.flags "linux" true true) []
      = inr (fl0, ge, toolArgs) /\
    runCommand (Demo.env Demo.flags "linux" true true) ge
      (toolArguments ["go"; "tool"; "link"] importcfgName stampMap
         (normalizePaths (Demo.env Demo.flags "linux" true true) fl0)
         toolArgs) = None.
Proof.
  assert (Hlink : link (Demo.env Demo.flags "linux" true true) [] =
            ([Demo.built; RunCommand Demo.expectedArgs;
              StripArMetadata "/work/out/lib.a"; Remove "/tmp/importcfg"],
             None)) by (vm_compute; reflexivity).
  split; [exact Hlink|].
  destruct (link_argument_order _ _ _ Hlink)
    as (fl0 & ge & toolArgs & stampMap & name & Hargs & _ & _ & _ & _
        & Hrun & _).
  exists fl0, ge, toolArgs, stampMap, name. split; [exact Hargs|exact Hrun].
Defined.

Lemma importcfg_removed_on_every_exit_witness :
  link (Demo.env Demo.flags "linux" false true) [] =
    ([Demo.built; RunCommand Demo.expectedArgs; Remove "/tmp/importcfg"],
     Some "exit status 1") /\
  exists later,
    [Demo.built; RunCommand Demo.expectedArgs; Remove "/tmp/importcfg"] =
      Demo.built :: later ++ [Remove "/tmp/importcfg"] /\
    Forall (fun e => isRemove e = false) later.
Proof.
  assert (Hlink : link (Demo.env Demo.flags "linux" false true) [] =
            ([Demo.built; RunCommand Demo.expectedArgs;
              Remove "/tmp/importcfg"], Some "exit status 1"))
    by (vm_compute; reflexivity).
  split; [exact Hlink|].
  destruct (importcfg_removed_on_every_exit
              (Demo.env Demo.flags "linux" false true) [] _ _
              [Archive "lbl" "pkg/x" "/tmp/x.a"] "packages.txt" ""
              "/work/out" false "/tmp/importcfg" Hlink)
    as (later & Hcalls & Hlater & _).
  - left. reflexivity.
  - reflexivity.
  - exists later. split; [exact Hcalls|exact Hlater].
Defined.

Lemma strip_once_iff_c_archive_witness :
  parseArguments (Demo.env Demo.flags "linux" true false) [] =
    inr (Demo.flags, tt, ["-s"; "-w"]) /\
  link (Demo.env Demo.flags "linux" true false) [] =
    ([Demo.built; RunCommand Demo.expectedArgs;
      StripArMetadata "/work/out/lib.a"; Remove "/tmp/importcfg"],
     Some "error stripping archive metadata: bad archive") /\
  countStrips [Demo.built; RunCommand Demo.expectedArgs;
               StripArMetadata "/work/out/lib.a"; Remove "/tmp/importcfg"]
    = 1%nat.
Proof.
  assert (Hargs : parseArguments (Demo.env Demo.flags "linux" true false) [] =
            inr (Demo.flags, tt, ["-s"; "-w"])) by reflexivity.
  assert (Hlink : link (Demo.env Demo.flags "linux" true false) [] =
            ([Demo.built; RunCommand Demo.expectedArgs;
              StripArMetadata "/work/out/lib.a"; Remove "/tmp/importcfg"],
             Some "error stripping archive metadata: bad archive"))
    by (vm_compute; reflexivity).
  split; [exact Hargs|]. split; [exact Hlink|].
  destruct (strip_once_iff_c_archive _ _ _ _ _ _ _ Hargs Hlink)
    as (Hrun & _).
  apply Hrun.
  - reflexivity.
  - exists Demo.expectedArgs. split; [right; left; reflexivity|reflexivity].
Defined.

Lemma paths_made_absolute_witness :
  parseArguments (Demo.env Demo.flags "darwin" true true) [] =
    inr (Demo.flags, tt, ["-s"; "-w"]) /\
  link (Demo.env Demo.flags "darwin" true true) [] =
    ([Demo.built;
      RunCommand
        ["go"; "tool"; "link"; "-importcfg"; "/tmp/importcfg";
         "-X"; "pkg/x.Version=alice"; "-X"; "main.Name=demo";
         "-buildmode"; "c-archive"; "-o"; "out/lib.a";
         "-s"; "-w"; "/work/a.o"];
      StripArMetadata "out/lib.a";
      Remove "/tmp/importcfg"], None) /\
  main (normalizePaths (Demo.env Demo.flags "darwin" true true) Demo.flags)
    = "/work/a.o" /\
  outFile (normalizePaths (Demo.env Demo.flags "darwin" true true) Demo.flags)
    = "out/lib.a" /\
  In (RunCommand
        ["go"; "tool"; "link"; "-importcfg"; "/tmp/importcfg";
         "-X"; "pkg/x.Version=alice"; "-X"; "main.Name=demo";
         "-buildmode"; "c-archive"; "-o"; "out/lib.a";
         "-s"; "-w"; "/work/a.o"])
     (fst (link (Demo.env Demo.flags "darwin" true true) [])) /\
  In (StripArMetadata "out/lib.a")
     (fst (link (Demo.env Demo.flags "darwin" true true) [])) /\
  In (RunCommand Demo.expectedArgs)
     (fst (link (Demo.env Demo.flags "linux" true true) [])) /\
  In (StripArMetadata "/work/out/lib.a")
     (fst (link (Demo.env Demo.flags "linux" true true) [])).
Proof.
  assert (Hargs : forall goos,
            parseArguments (Demo.env Demo.flags goos true true) [] =
              inr (Demo.flags, tt, ["-s"; "-w"])) by reflexivity.
  assert (Hlink : forall goos,
            link (Demo.env Demo.flags goos true true) [] =
              (fst (link (Demo.env Demo.flags goos true true) []),
               snd (link (Demo.env Demo.flags goos true true) [])))
    by (intros goos; apply surjective_pairing).
  assert (Hload : forall goos,
            loadStampFiles (Demo.env Demo.flags goos true true)
              (stamps Demo.flags) ∅ = inr (fileTable Demo.stampFile))
    by reflexivity.
  split; [exact (Hargs "darwin")|].
  split; [vm_compute; reflexivity|].
  destruct (paths_made_absolute _ _ _ _ _ _ _ (Hargs "darwin")
              (Hlink "darwin"))
    as (Hmain & Hout & _ & _ & _ & Hdarwin).
  destruct (paths_made_absolute _ _ _ _ _ _ _ (Hargs "linux")
              (Hlink "linux"))
    as (_ & _ & _ & _ & _ & Hlinux).
  split; [exact Hmain|]. split; [exact Hout|].
  assert (Hxs : Forall (parses (packagePath Demo.flags))
                  (xstamps Demo.flags))
    by (repeat first [ apply List.Forall_nil
                     | apply List.Forall_cons; [eexists; reflexivity|] ]).
  assert (Hxd : Forall (parses (packagePath Demo.flags)) (xdefs Demo.flags))
    by (repeat first [ apply List.Forall_nil
                     | apply List.Forall_cons; [eexists; reflexivity|] ]).
  destruct (Hdarwin _ (Hload "darwin")) as [_ Hd].
  destruct (Hd "/tmp/importcfg" eq_refl Hxs Hxd)
    as (frontD & -> & HrunD & HstripD).
  destruct (Hlinux _ (Hload "linux")) as [_ Hl].
  destruct (Hl "/tmp/importcfg" eq_refl Hxs Hxd)
    as (frontL & -> & HrunL & HstripL).
  split; [exact HrunD|]. split; [exact (HstripD eq_refl eq_refl)|].
  split; [exact HrunL|exact (HstripL eq_refl eq_refl)].
Defined.

(** ** The stamp table *)

Section StampTable.

Context {goenv : Type}.
Variable E : Env goenv.

(** One line changes the table by at most one insertion, which does not
    depend on the table. *)
Lemma stampLine_overwrite (m : gmap string string) text :
  stampLine m text = overwrite m (stampLine ∅ text).
Proof.
  unfold stampLine, overwrite.
  destruct (SplitN text " " 2) as [|key [|value [|]]];
    rewrite <- ?insert_union_l, ?(left_id_L ∅ (∪)); done.
Qed.

Lemma fold_stampLine_overwrite lines (m : gmap string string) :
  fold_left stampLine lines m = overwrite m (fold_left stampLine lines ∅).
Proof.
  revert m. induction lines as [|text lines IH]; intros m; cbn [fold_left].
  - unfold overwrite. by rewrite (left_id_L ∅ (∪)).
  - rewrite IH, (IH (stampLine ∅ text)), (stampLine_overwrite m).
    unfold overwrite. by rewrite (assoc_L (∪)).
Qed.

Lemma scanStampBuf_overwrite stampbuf (m : gmap string string) :
  scanStampBuf stampbuf m = overwrite m (fileTable stampbuf).
Proof. apply fold_stampLine_overwrite. Qed.

Lemma loadStampFiles_fold stamps bufs (m : gmap string string) :
  Forall2 (fun stampfile buf => ReadFile E stampfile = inr buf) stamps bufs ->
  loadStampFiles E stamps m =
    inr (fold_left (fun table buf => overwrite table (fileTable buf)) bufs m).
Proof.
  intros Hread. revert m.
  induction Hread as [|stampfile buf stamps bufs Hbuf _ IH]; intros m; [done|].
  cbn [loadStampFiles fold_left]. rewrite Hbuf, scanStampBuf_overwrite.
  apply IH.
Qed.

Lemma mergeTables_fold bufs :
  mergeTables bufs =
    fold_left (fun table buf => overwrite table (fileTable buf)) bufs ∅.
Proof.
  destruct bufs as [|first later]; [done|].
  cbn [mergeTables fold_left]. unfold overwrite at 3.
  by rewrite (right_id_L ∅ (∪)).
Qed.

Lemma fold_overwrite_lookup bufs (m : gmap string string) key :
  fold_left (fun table buf => overwrite table (fileTable buf)) bufs m !! key =
    match latestValue key bufs with
    | Some v => Some v
    | None => m !! key
    end.
Proof.
  revert m. induction bufs as [|buf bufs IH]; intros m; [done|].
  cbn [fold_left latestValue]. rewrite IH.
  destruct (latestValue key bufs) as [v|]; [done|].
  unfold overwrite. rewrite lookup_union.
  destruct (fileTable buf !! key), (m !! key); done.
Qed.

(** C4: when the stamp files are read in their declared order, the
    table [link] ends with is the table of the first file overwritten
    key by key with the tables of the later files in turn; a key has
    the value given by the last-declared file that defines it. *)
Theorem stamp_files_merge_later_wins (stamps bufs : list string) :
  Forall2 (fun stampfile buf => ReadFile E stampfile = inr buf) stamps bufs ->
  loadStampFiles E stamps ∅ = inr (mergeTables bufs) /\
  (forall key, mergeTables bufs !! key = latestValue key bufs).
Proof.
  intros Hread. split.
  - rewrite mergeTables_fold. by apply loadStampFiles_fold.
  - intros key. rewrite mergeTables_fold, fold_overwrite_lookup.
    rewrite lookup_empty. by destruct (latestValue key bufs).
Qed.

End StampTable.

Lemma stamp_files_merge_later_wins_witness :
  loadStampFiles (Demo.env Demo.flags "linux" true true)
    ["stamp.txt"; "stamp2.txt"] ∅ =
    inr (mergeTables [Demo.stampFile; Demo.stampFile2]) /\
  mergeTables [Demo.stampFile; Demo.stampFile2] !! "BUILD_USER" = Some "bob".
Proof.
  pose proof (stamp_files_merge_later_wins
                (Demo.env Demo.flags "linux" true true)
                ["stamp.txt"; "stamp2.txt"]
                [Demo.stampFile; Demo.stampFile2]) as H.
  destruct H as [Hload Hkey].
  - repeat constructor.
  - split; [exact Hload|]. rewrite Hkey. reflexivity.
Defined.

(** ** Scanning and splitting the lines of a stamp file *)

Section Scanning.

Lemma ScanLines_advance data atEOF advance token :
  ScanLines data atEOF = (advance, Some token) ->
  1 <= advance <= len data.
Proof.
  unfold ScanLines. pose proof (IndexByte_range data "010") as Hi.
  pose proof (len_nonneg data) as Hlen.
  destruct (atEOF && (len data =? 0)) eqn:Hend; [done|].
  destruct (Z.leb_spec 0 (IndexByte data "010")).
  - intros [= <- _]. lia.
  - destruct atEOF; [|done]. intros [= <- _].
    cbn [andb] in Hend. apply Z.eqb_neq in Hend. lia.
Qed.

Lemma length_slice_from rest advance :
  0 <= advance <= len rest ->
  String.length (slice_from rest advance)
    = (String.length rest - Z.to_nat advance)%nat.
Proof.
  intros H. unfold slice_from, slice, len in *.
  rewrite length_substring. lia.
Qed.

Lemma len_window rest : len (slice_to rest (Z.min (len rest) MaxScanTokenSize)) <= len rest.
Proof.
  unfold slice_to, slice, len. rewrite length_substring. lia.
Qed.

(** Any fuel above the length of the input gives the same tokens:
    [scanAll] never stops for lack of fuel. *)
Lemma scanTokens_enough fuel1 fuel2 rest :
  (String.length rest < fuel1)%nat -> (String.length rest < fuel2)%nat ->
  scanTokens fuel1 rest = scanTokens fuel2 rest.
Proof.
  revert fuel2 rest.
  induction fuel1 as [|fuel1 IH]; intros [|fuel2] rest H1 H2; try lia.
  cbn [scanTokens].
  destruct (ScanLines _ _) as [advance [token|]] eqn:Hscan; [|done].
  apply ScanLines_advance in Hscan. pose proof (len_window rest) as Hw.
  f_equal. apply IH; rewrite length_slice_from by lia; unfold len in *; lia.
Qed.

Lemma scanTokens_fuel fuel rest :
  (String.length rest < fuel)%nat -> scanTokens fuel rest = scanAll rest.
Proof. intros H. apply scanTokens_enough; [done|lia]. Qed.

(** What [SplitN(text, " ", 2)] gives: the text itself when it has no
    space, the parts around the first space otherwise.  The result is
    never empty. *)
Lemma SplitN_no_space text :
  has_byte " " text = false -> SplitN text " " 2 = [text].
Proof.
  intros H. cbn [SplitN splitLoop Index]. by rewrite (IndexByte_absent _ _ H).
Qed.

Lemma SplitN_first_space key value :
  has_byte " " key = false ->
  SplitN (key +:+ " " +:+ value) " " 2 = [key; value].
Proof.
  intros H. cbn [SplitN splitLoop Index].
  change (" " +:+ value) with (String " " value).
  rewrite (IndexByte_app _ _ _ H). pose proof (len_nonneg key).
  destruct (Z.ltb_spec (len key) 0); [lia|].
  rewrite slice_to_app. change (len " ") with 1.
  by rewrite slice_from_app.
Qed.

Lemma stampLine_bare (m : gmap string string) key :
  has_byte " " key = false -> stampLine m key = <[key := ""]> m.
Proof. intros H. unfold stampLine. by rewrite SplitN_no_space. Qed.

Lemma stampLine_key_value (m : gmap string string) key value :
  has_byte " " key = false ->
  stampLine m (key +:+ " " +:+ value) = <[key := value]> m.
Proof. intros H. unfold stampLine. by rewrite SplitN_first_space. Qed.

End Scanning.

(** C5, where the code departs from it: an empty line is not skipped.
    The scanner returns it as the empty token, [SplitN] turns that into
    the one-element list holding the empty string (never into the empty
    list that the "nothing to do" case waits for), and the table gets
    the entry from the empty key to the empty string.  An indirect
    request with an empty key is then forwarded. *)
Theorem empty_stamp_line_adds_entry :
  scanAll LF = [""] /\
  SplitN "" " " 2 = [""] /\
  (forall m : gmap string string, stampLine m "" = <["" := ""]> m) /\
  fileTable LF = {[ "" := "" ]} /\
  fileTable ("BUILD_USER alice" +:+ LF +:+ LF +:+ "BUILD_HOST" +:+ LF) =
    {[ "BUILD_USER" := "alice"; "" := ""; "BUILD_HOST" := "" ]} /\
  fileTable ("BUILD_USER alice" +:+ LF +:+ "BUILD_HOST" +:+ LF) !! "" = None /\
  xstampArgs "" (fileTable LF) "pkg.Sym=" = ["-X"; "pkg.Sym="].
Proof.
  split; [reflexivity|]. split; [reflexivity|].
  split; [intros m; by apply stampLine_bare|].
  repeat split; vm_compute; reflexivity.
Qed.

(** A line that does not fit the scanner's buffer ends the scan, and
    [link] never asks the scanner for its error: the lines after it are
    lost without a message. *)
Lemma long_line_ends_scan :
  fileTable (repeatByte (Z.to_nat MaxScanTokenSize) "a" +:+ LF
               +:+ "BUILD_USER alice" +:+ LF) = ∅.
Proof. vm_compute. reflexivity. Qed.

(** * Further properties of the code *)

(** ** The scanner on well-formed text *)

Section ScanText.

Lemma substring_0_app_ge (a b : string) (n : nat) :
  (String.length a <= n)%nat ->
  substring 0 n (a +:+ b) = a +:+ substring 0 (n - String.length a) b.
Proof.
  revert n. induction a as [|x a IH]; intros n Hn;
    rewrite ?append_empty, ?append_String.
  - cbn [String.length]. by rewrite Nat.sub_0_r.
  - cbn [String.length] in *. destruct n as [|n]; [lia|].
    cbn [substring]. rewrite IH by lia. done.
Qed.

Lemma substring_end (s : string) : substring (String.length s) 0 s = "".
Proof. induction s as [|x s IH]; cbn; [done|exact IH]. Qed.

Lemma slice_to_all (s : string) : slice_to s (len s) = s.
Proof.
  unfold slice_to, slice, len. rewrite Z.sub_0_r, Nat2Z.id.
  apply substring_0_all.
Qed.

Lemma slice_from_end (s : string) : slice_from s (len s) = "".
Proof.
  unfold slice_from, slice, len. rewrite Z.sub_diag, Nat2Z.id.
  apply substring_end.
Qed.

Lemma scanTokens_empty fuel : scanTokens fuel "" = [].
Proof. destruct fuel; reflexivity. Qed.

(** The buffer window over [line ++ LF ++ rest] begins with the whole
    line and its line feed when the line is [scannable]. *)
Lemma window_line line rest :
  len line < MaxScanTokenSize ->
  exists more,
    slice_to (line +:+ String "010" rest)
      (Z.min (len (line +:+ String "010" rest)) MaxScanTokenSize)
    = line +:+ String "010" more.
Proof.
  intros Hlen. unfold slice_to, slice. rewrite Z.sub_0_r.
  replace (line +:+ String "010" rest)
    with ((line +:+ String "010" "") +:+ rest)
    by (rewrite append_assoc, append_String, append_empty; done).
  change (Z.to_nat 0) with 0%nat.
  rewrite substring_0_app_ge.
  - eexists. rewrite append_assoc, append_String, append_empty. reflexivity.
  - rewrite len_app. unfold len in *. rewrite !length_append in *.
    cbn [String.length] in *. lia.
Qed.

Lemma scanTokens_step fuel rest :
  scanTokens (S fuel) rest =
    match ScanLines (slice_to rest (Z.min (len rest) MaxScanTokenSize))
            (len rest <? MaxScanTokenSize) with
    | (advance, Some token) =>
        token :: scanTokens fuel (slice_from rest advance)
    | (_, None) => []
    end.
Proof. reflexivity. Qed.

Lemma scanTokens_line fuel line rest :
  scannable line ->
  scanTokens (S fuel) (line +:+ String "010" rest)
    = dropCR line :: scanTokens fuel rest.
Proof.
  intros [Hlf Hlen]. cbn [scanTokens].
  destruct (window_line line rest Hlen) as [more ->].
  unfold ScanLines.
  assert (Hw : (len (line +:+ String "010" more) =? 0) = false).
  { apply Z.eqb_neq. rewrite len_app, len_String.
    pose proof (len_nonneg line). pose proof (len_nonneg more). lia. }
  rewrite Hw, andb_false_r, (IndexByte_app _ _ _ Hlf).
  pose proof (len_nonneg line).
  destruct (Z.leb_spec 0 (len line)); [|lia].
  change (slice (line +:+ String "010" more) 0 (len line))
    with (slice_to (line +:+ String "010" more) (len line)).
  by rewrite slice_to_app, slice_from_app.
Qed.

Lemma scanTokens_last fuel last :
  scannable last -> last <> "" ->
  scanTokens (S (S fuel)) last = [dropCR last].
Proof.
  intros [Hlf Hlen] Hne. rewrite scanTokens_step.
  assert (Hpos : 0 < len last).
  { clear Hlf Hlen. destruct last as [|c l]; [done|]. rewrite len_String.
    pose proof (len_nonneg l). lia. }
  rewrite Z.min_l by lia. rewrite slice_to_all.
  destruct (Z.ltb_spec (len last) MaxScanTokenSize); [|lia].
  unfold ScanLines at 1.
  assert (Hz : (len last =? 0) = false) by (apply Z.eqb_neq; lia).
  rewrite Hz, (IndexByte_absent _ _ Hlf). cbn [andb].
  change (0 <=? -1) with false. cbv iota.
  by rewrite slice_from_end, scanTokens_empty.
Qed.

Lemma textOf_LF_cons line lines :
  textOf LF (line :: lines) = line +:+ String "010" (textOf LF lines).
Proof. reflexivity. Qed.

Lemma scanTokens_text fuel lines last :
  Forall scannable lines ->
  last = "" \/ scannable last ->
  (String.length (textOf LF lines +:+ last) < fuel)%nat ->
  scanTokens fuel (textOf LF lines +:+ last)
    = map dropCR lines ++ (if String.eqb last "" then [] else [dropCR last]).
Proof.
  intros Hlines Hlast. revert fuel.
  induction Hlines as [|line lines Hline _ IH]; intros fuel Hfuel.
  - cbn [textOf fold_right map app]. rewrite append_empty in *.
    destruct (String.eqb_spec last "") as [->|Hne].
    + apply scanTokens_empty.
    + destruct Hlast as [|Hlast]; [done|].
      destruct fuel as [|[|fuel]].
      * lia.
      * destruct last as [|c l]; [done|]. cbn [String.length] in Hfuel. lia.
      * by apply scanTokens_last.
  - rewrite textOf_LF_cons, append_assoc, append_String in *.
    destruct fuel as [|fuel]; [lia|].
    rewrite scanTokens_line by done. cbn [map app]. f_equal.
    apply IH. rewrite length_append in Hfuel. cbn [String.length] in Hfuel.
    lia.
Qed.

End ScanText.

Section ScanProperties.

Lemma get_append_end (line : string) (c : ascii) :
  String.get (String.length line) (line +:+ String c "") = Some c.
Proof.
  induction line as [|x line IH]; rewrite ?append_empty, ?append_String;
    cbn [String.length String.get]; [done|exact IH].
Qed.

Lemma dropCR_CR (line : string) : dropCR (line +:+ CR) = line.
Proof.
  unfold dropCR, CR, byte_at.
  rewrite len_app. change (len (String "013" "")) with 1.
  replace (len line + 1 - 1) with (len line) by lia.
  unfold len at 2. rewrite Nat2Z.id, get_append_end.
  pose proof (len_nonneg line).
  destruct (Z.gtb_spec (len line + 1) 0); [|lia].
  cbn [andb Ascii.eqb Bool.eqb].
  change (slice (line +:+ String "013" "") 0 (len line))
    with (slice_to (line +:+ String "013" "") (len line)).
  apply slice_to_app.
Qed.

Lemma textOf_cons eol line lines :
  textOf eol (line :: lines) = line +:+ eol +:+ textOf eol lines.
Proof. reflexivity. Qed.

Lemma textOf_CRLF lines :
  textOf (CR +:+ LF) lines = textOf LF (map (fun line => line +:+ CR) lines).
Proof.
  induction lines as [|line lines IH]; [done|].
  cbn [map]. rewrite !textOf_cons, IH. by rewrite !append_assoc.
Qed.

Lemma append_empty_r (s : string) : s +:+ "" = s.
Proof.
  induction s as [|x s IH]; rewrite ?append_empty, ?append_String;
    [done|by rewrite IH].
Qed.

(** X1: the scanner returns the lines of a text in order, without their
    line feeds and without one trailing carriage return each; a last
    line with no line feed is returned too, and an empty remainder after
    the last line feed is not a line. *)
Theorem scanAll_text (lines : list string) (last : string) :
  Forall scannable lines ->
  last = "" \/ scannable last ->
  scanAll (textOf LF lines +:+ last)
    = map dropCR lines ++ (if String.eqb last "" then [] else [dropCR last]).
Proof.
  intros Hlines Hlast. unfold scanAll. apply scanTokens_text; [done..|lia].
Qed.

Lemma scanAll_text_witness :
  scanAll ("a 1" +:+ LF +:+ "" +:+ LF +:+ "b" +:+ CR +:+ LF +:+ "c 3")
    = ["a 1"; ""; "b"; "c 3"].
Proof.
  refine (scanAll_text ["a 1"; ""; "b" +:+ CR] "c 3" _ _).
  - repeat constructor.
  - right. split; reflexivity.
Defined.

(** X2: a stamp file without a line feed after its last line loads like
    the same file with it. *)
Theorem final_line_feed_optional
    (lines : list string) (last : string) (stampMap : gmap string string) :
  Forall scannable lines -> scannable last -> last <> "" ->
  scanStampBuf (textOf LF lines +:+ last) stampMap
    = scanStampBuf (textOf LF (lines ++ [last])) stampMap.
Proof.
  intros Hlines Hlast Hne. unfold scanStampBuf. f_equal.
  rewrite scanAll_text by auto.
  apply String.eqb_neq in Hne. rewrite Hne.
  rewrite <- (append_empty_r (textOf LF (lines ++ [last]))).
  rewrite scanAll_text; [|by apply Forall_app; split; [|constructor]|by left].
  cbn [String.eqb]. by rewrite map_app, app_nil_r.
Qed.

Lemma final_line_feed_optional_witness :
  scanStampBuf ("BUILD_USER alice" +:+ LF +:+ "BUILD_HOST h1") ∅
    = scanStampBuf ("BUILD_USER alice" +:+ LF +:+ "BUILD_HOST h1" +:+ LF) ∅.
Proof.
  refine (final_line_feed_optional ["BUILD_USER alice"] "BUILD_HOST h1" ∅
            _ _ _).
  - repeat constructor.
  - split; reflexivity.
  - discriminate.
Defined.

(** X3: in a stamp file with CR LF line ends the loop is given each
    line exactly as written before its CR LF: the carriage return of
    the line end never becomes part of a key or value.  When moreover
    no line itself ends in a carriage return, the file loads exactly
    like the same lines with LF line ends. *)
Theorem crlf_line_ends_accepted
    (lines : list string) (stampMap : gmap string string) :
  Forall (fun line => scannable (line +:+ CR)) lines ->
  scanAll (textOf (CR +:+ LF) lines) = lines /\
  scanStampBuf (textOf (CR +:+ LF) lines) stampMap
    = fold_left stampLine lines stampMap /\
  (Forall (fun line => dropCR line = line) lines ->
   scanStampBuf (textOf (CR +:+ LF) lines) stampMap
     = scanStampBuf (textOf LF lines) stampMap).
Proof.
  intros Hlines.
  assert (Hdos : scanAll (textOf (CR +:+ LF) lines) = lines).
  { rewrite textOf_CRLF.
    rewrite <- (append_empty_r (textOf LF (map _ lines))).
    rewrite scanAll_text; [| |by left].
    - cbn [String.eqb]. rewrite app_nil_r, map_map.
      clear Hlines. induction lines as [|line lines IH]; [done|].
      cbn [map]. by rewrite dropCR_CR, IH.
    - by apply Forall_map. }
  split; [exact Hdos|]. split.
  - unfold scanStampBuf. by rewrite Hdos.
  - intros Hcr. unfold scanStampBuf. f_equal. rewrite Hdos.
    rewrite <- (append_empty_r (textOf LF lines)).
    rewrite scanAll_text; [| |by left].
    + cbn [String.eqb]. rewrite app_nil_r.
      clear Hlines Hdos. induction Hcr as [|line lines Hline _ IH]; [done|].
      cbn [map]. by rewrite Hline, <- IH.
    + eapply Forall_impl; [exact Hlines|]. intros line [Hlf Hlen].
      rewrite has_byte_app in Hlf. apply orb_false_iff in Hlf as [Hlf _].
      rewrite len_app in Hlen. change (len CR) with 1 in Hlen.
      split; [done|lia].
Qed.

Lemma crlf_line_ends_accepted_witness :
  scanAll ("K" +:+ CR +:+ CR +:+ LF +:+ "BUILD_USER alice" +:+ CR +:+ LF)
    = ["K" +:+ CR; "BUILD_USER alice"] /\
  scanStampBuf
    ("BUILD_USER alice" +:+ CR +:+ LF +:+ "BUILD_HOST" +:+ CR +:+ LF) ∅
    = scanStampBuf ("BUILD_USER alice" +:+ LF +:+ "BUILD_HOST" +:+ LF) ∅.
Proof.
  split.
  - refine (proj1 (crlf_line_ends_accepted
                     ["K" +:+ CR; "BUILD_USER alice"] ∅ _)).
    repeat constructor.
  - refine (proj2 (proj2 (crlf_line_ends_accepted
                            ["BUILD_USER alice"; "BUILD_HOST"] ∅ _)) _).
    + repeat constructor.
    + repeat constructor.
Defined.

End ScanProperties.

Section StampFormat.

Lemma fold_insert_bindings (bindings : list (string * string))
    (m : gmap string string) :
  fold_left (fun table b => <[fst b := snd b]> table) bindings m
    = list_to_map (rev bindings) ∪ m.
Proof.
  revert m. induction bindings as [|b bindings IH]; intros m.
  - cbn. by rewrite (left_id_L ∅ (∪)).
  - cbn [fold_left rev]. rewrite IH, list_to_map_app.
    cbn [list_to_map foldr]. rewrite <- (assoc_L (∪)).
    by rewrite <- insert_union_l, (left_id_L ∅ (∪)).
Qed.

Lemma stampLine_entry (m : gmap string string) (entry : string * option string) :
  has_byte " " (fst entry) = false ->
  stampLine m (entryLine entry)
    = <[fst (entryBinding entry) := snd (entryBinding entry)]> m.
Proof.
  destruct entry as [key [value|]]; cbn [fst snd entryLine entryBinding default];
    intros Hkey.
  - by apply stampLine_key_value.
  - by apply stampLine_bare.
Qed.

(** X4: loading a stamp file that lists entries one per line, as
    "key value" or as a bare key, gives the table of those entries,
    a bare key bound to the empty string and a repeated key bound as on
    its last line; the value is everything after the first space and
    may hold spaces.  This is for keys that hold no space and lines
    that hold no line feed, do not end in a carriage return and fit
    the scanner's buffer with their line feed. *)
Theorem stamp_file_round_trip (entries : list (string * option string)) :
  Forall (fun entry =>
            has_byte " " (fst entry) = false /\
            scannable (entryLine entry) /\
            dropCR (entryLine entry) = entryLine entry) entries ->
  fileTable (textOf LF (map entryLine entries))
    = list_to_map (rev (map entryBinding entries)).
Proof.
  intros Hentries. unfold fileTable, scanStampBuf.
  rewrite <- (append_empty_r (textOf LF _)).
  rewrite scanAll_text; [| |by left].
  2:{ apply Forall_map. eapply Forall_impl; [exact Hentries|].
      by intros entry (_ & Hs & _). }
  cbn [String.eqb]. rewrite app_nil_r, map_map.
  rewrite <- (right_id_L ∅ (∪) (list_to_map _)).
  rewrite <- fold_insert_bindings. generalize (∅ : gmap string string).
  induction Hentries as [|entry entries (Hkey & _ & Hcr) _ IH]; intros m;
    [done|].
  cbn [map fold_left]. rewrite Hcr, stampLine_entry by done. apply IH.
Qed.

Lemma stamp_file_round_trip_witness :
  fileTable ("BUILD_USER alice" +:+ LF +:+ "BUILD_HOST" +:+ LF
               +:+ "BUILD_USER bob the builder" +:+ LF)
    = {[ "BUILD_USER" := "bob the builder"; "BUILD_HOST" := "" ]}.
Proof.
  refine (eq_trans
            (stamp_file_round_trip
               [("BUILD_USER", Some "alice"); ("BUILD_HOST", None);
                ("BUILD_USER", Some "bob the builder")] _) _).
  - repeat constructor.
  - vm_compute. reflexivity.
Defined.

Lemma substring_0_app_le (a b : string) (n : nat) :
  (n <= String.length a)%nat -> substring 0 n (a +:+ b) = substring 0 n a.
Proof.
  revert n. induction a as [|x a IH]; intros n Hn;
    rewrite ?append_empty, ?append_String.
  - cbn [String.length] in Hn. assert (n = 0%nat) as -> by lia.
    by destruct b.
  - destruct n as [|n]; [done|]. cbn [String.length] in Hn.
    cbn [substring]. by rewrite IH by lia.
Qed.

Lemma has_byte_substring_0 c (a : string) (n : nat) :
  has_byte c a = false -> has_byte c (substring 0 n a) = false.
Proof.
  revert n. induction a as [|x a IH]; intros [|n]; cbn [substring has_byte];
    try done.
  intros [Hx Ha]%orb_false_iff. by rewrite Hx, IH.
Qed.

Lemma scanTokens_too_long fuel long rest :
  has_byte "010" long = false -> MaxScanTokenSize <= len long ->
  scanTokens fuel (long +:+ rest) = [].
Proof.
  intros Hlf Hlen. destruct fuel as [|fuel]; [done|].
  rewrite scanTokens_step.
  pose proof (len_nonneg rest) as Hrest.
  rewrite len_app, Z.min_r by lia.
  destruct (Z.ltb_spec (len long + len rest) MaxScanTokenSize); [lia|].
  unfold slice_to, slice. rewrite Z.sub_0_r.
  change (Z.to_nat 0) with 0%nat.
  rewrite substring_0_app_le by (unfold len in Hlen; lia).
  unfold ScanLines. cbn [andb].
  rewrite (IndexByte_absent _ _ (has_byte_substring_0 _ _ _ Hlf)).
  reflexivity.
Qed.

Lemma scanTokens_long_text fuel lines long rest :
  Forall scannable lines ->
  has_byte "010" long = false -> MaxScanTokenSize <= len long ->
  (String.length (textOf LF lines +:+ long +:+ rest) < fuel)%nat ->
  scanTokens fuel (textOf LF lines +:+ long +:+ rest) = map dropCR lines.
Proof.
  intros Hlines Hlf Hlen. revert fuel.
  induction Hlines as [|line lines Hline _ IH]; intros fuel Hfuel.
  - cbn [textOf fold_right map]. rewrite append_empty.
    by apply scanTokens_too_long.
  - rewrite textOf_LF_cons, append_assoc, append_String in *.
    destruct fuel as [|fuel]; [lia|].
    rewrite scanTokens_line by done. cbn [map]. f_equal. apply IH.
    rewrite length_append in Hfuel. cbn [String.length] in Hfuel. lia.
Qed.

(** X5: a line that, with its line feed, does not fit the scanner's
    64 KiB buffer ends the loading of that stamp file: the lines before
    it are loaded, the line and everything after it are ignored, and no
    error is reported. *)
Theorem over_long_line_truncates_stamp_file
    (lines : list string) (long rest : string)
    (stampMap : gmap string string) :
  Forall scannable lines ->
  has_byte "010" long = false -> MaxScanTokenSize <= len long ->
  scanStampBuf (textOf LF lines +:+ long +:+ rest) stampMap
    = scanStampBuf (textOf LF lines) stampMap.
Proof.
  intros Hlines Hlf Hlen. unfold scanStampBuf. f_equal.
  rewrite <- (append_empty_r (textOf LF lines)) at 2.
  rewrite (scanAll_text lines "") by auto. cbn [String.eqb].
  rewrite app_nil_r. unfold scanAll.
  apply scanTokens_long_text; [done..|lia].
Qed.

Lemma over_long_line_truncates_stamp_file_witness :
  scanStampBuf
    ("BUILD_USER alice" +:+ LF
       +:+ repeatByte (Z.to_nat MaxScanTokenSize) "x"
       +:+ LF +:+ "BUILD_HOST h1" +:+ LF) ∅
    = {[ "BUILD_USER" := "alice" ]}.
Proof.
  refine (eq_trans
            (over_long_line_truncates_stamp_file ["BUILD_USER alice"]
               (repeatByte (Z.to_nat MaxScanTokenSize) "x")
               (LF +:+ "BUILD_HOST h1" +:+ LF) ∅ _ _ _) _).
  - repeat constructor.
  - vm_compute. reflexivity.
  - vm_compute. discriminate.
  - vm_compute. reflexivity.
Defined.

End StampFormat.

(** ** More on [parseXdef] and the substitution loops *)

Section Requests.

(** X6: what [parseXdef] accepts reads back: an accepted request is the
    package part, a '.', the symbol name, a '=' and the value, where
    the package part and the name hold no '=' and the name holds no '.';
    the returned package is that package part, or "main" in its place
    when it is the own package path. *)
Theorem parseXdef_accepts_only_what_it_returns
    (pp xdef pkg name value : string) :
  parseXdef pp xdef = inr (pkg, name, value) ->
  exists part,
    xdef = part +:+ "." +:+ name +:+ "=" +:+ value /\
    has_byte "=" part = false /\ has_byte "=" name = false /\
    has_byte "." name = false /\
    pkg = (if String.eqb part pp then "main" else part).
Proof.
  intros Hparse.
  destruct (xdef_shapes xdef)
    as [Hno|[(lhs & v & -> & He & Hd)|(part & n & v & -> & Hp & Hn & Hd)]].
  - rewrite (parseXdef_no_eq pp _ Hno) in Hparse. discriminate Hparse.
  - rewrite (parseXdef_no_dot pp _ _ He Hd) in Hparse. discriminate Hparse.
  - rewrite (parseXdef_split pp _ _ _ Hp Hn Hd) in Hparse.
    injection Hparse as <- <- <-. by exists part.
Qed.

Lemma parseXdef_accepts_only_what_it_returns_witness :
  exists part,
    "example.com/m.Sym=a.b=c" = part +:+ "." +:+ "Sym" +:+ "=" +:+ "a.b=c" /\
    has_byte "=" part = false /\ has_byte "=" "Sym" = false /\
    has_byte "." "Sym" = false /\
    "example.com/m" = (if String.eqb part "own" then "main" else part).
Proof.
  exact (parseXdef_accepts_only_what_it_returns
           "own" "example.com/m.Sym=a.b=c" "example.com/m" "Sym" "a.b=c"
           eq_refl).
Defined.



(** X8: the slice expressions of [parseXdef] stay inside the request:
    once '=' and '.' are found, [xdef[:eq]], [xdef[:dot]],
    [xdef[dot+1:eq]] and [xdef[eq+1:]] all have bounds within
    [0 .. len(xdef)] in increasing order, so none of them panics. *)
Theorem parseXdef_slices_never_panic (xdef : string) :
  let eq := IndexByte xdef "=" in
  let dot := LastIndexByte (slice_to xdef eq) "." in
  0 <= eq -> 0 <= dot ->
  0 <= eq <= len xdef /\
  0 <= dot <= len xdef /\
  0 <= dot + 1 <= eq /\
  0 <= eq + 1 <= len xdef.
Proof.
  intros eq dot Heq Hdot.
  pose proof (IndexByte_range xdef "=") as He. fold eq in He.
  pose proof (LastIndexByte_range (slice_to xdef eq) ".") as Hd.
  fold dot in Hd. rewrite len_slice_to in Hd by lia. lia.
Qed.

Lemma parseXdef_slices_never_panic_witness :
  IndexByte "foo.Sym=val" "=" = 7 /\
  LastIndexByte (slice_to "foo.Sym=val" 7) "." = 3 /\
  (0 <= 7 <= len "foo.Sym=val" /\ 0 <= 3 <= len "foo.Sym=val" /\
   0 <= 3 + 1 <= 7 /\ 0 <= 7 + 1 <= len "foo.Sym=val").
Proof.
  split; [reflexivity|]. split; [reflexivity|].
  apply (parseXdef_slices_never_panic "foo.Sym=val"); vm_compute;
    discriminate.
Defined.

(** X9: requests whose keys are all missing from the stamp table leave
    the argument list as it was; in particular, with no stamp file at
    all, every well-formed -Xstamp request is dropped. *)
Theorem xstamps_without_stamps_add_nothing
    (pp : string) (stampMap : gmap string string)
    (requests goargs : list string) :
  Forall (fun xdef =>
            exists pkg name key,
              parseXdef pp xdef = inr (pkg, name, key) /\
              stampMap !! key = None) requests ->
  xstampsLoop pp stampMap requests goargs = inr goargs.
Proof.
  intros Hall. revert goargs.
  induction Hall as [|xdef requests (pkg & name & key & Hx & Hkey) _ IH];
    intros goargs; [done|].
  cbn [xstampsLoop]. rewrite Hx, Hkey. apply IH.
Qed.

Lemma xstamps_without_stamps_add_nothing_witness :
  xstampsLoop "" ∅ ["pkg/x.Version=BUILD_USER"; "pkg/x.Commit=BUILD_SCM"]
    ["link"] = inr ["link"].
Proof.
  apply xstamps_without_stamps_add_nothing.
  repeat constructor.
  - exists "pkg/x", "Version", "BUILD_USER". split; reflexivity.
  - exists "pkg/x", "Commit", "BUILD_SCM". split; reflexivity.
Defined.

(** X10: the first request that does not parse ends its loop with that
    request's error, whatever comes after it and whether or not its key
    is in the table. *)
Theorem first_malformed_request_reported
    (pp : string) (stampMap : gmap string string)
    (good : list string) (bad : string) (rest goargs : list string)
    (cause : error) :
  Forall (parses pp) good ->
  parseXdef pp bad = inl cause ->
  xstampsLoop pp stampMap (good ++ bad :: rest) goargs = inl cause /\
  xdefsLoop pp (good ++ bad :: rest) goargs = inl cause.
Proof.
  intros Hgood Hbad. split.
  - rewrite xstampsLoop_app, (xstampsLoop_parses _ _ _ _ Hgood).
    cbn [xstampsLoop]. by rewrite Hbad.
  - revert goargs.
    induction Hgood as [|x good [[[pkg name] value] Hx] _ IH]; intros goargs;
      cbn [app xdefsLoop].
    + by rewrite Hbad.
    + rewrite Hx. apply IH.
Qed.

Lemma first_malformed_request_reported_witness :
  xdefsLoop "" ["a.B=1"; "C=2"; "D"] ["link"]
    = inl "-X or -Xstamp flag does not contain '.': C=2".
Proof.
  refine (proj2 (first_malformed_request_reported
                   "" ∅ ["a.B=1"] "C=2" ["D"] ["link"] _ _ eq_refl)).
  repeat constructor. by exists ("a", "B", "1").
Defined.

End Requests.

(** ** More on the whole action *)

Section LinkOutcomes.

Context {goenv : Type}.
Variable E : Env goenv.

Lemma loadStampFiles_unreadable readable unreadable rest cause
    (m : gmap string string) :
  Forall (fun stampfile => exists buf, ReadFile E stampfile = inr buf)
         readable ->
  ReadFile E unreadable = inl cause ->
  loadStampFiles E (readable ++ unreadable :: rest) m
    = inl ("Failed reading stamp file " +:+ unreadable +:+ ": " +:+ cause).
Proof.
  intros Hreadable Hbad. revert m.
  induction Hreadable as [|stampfile readable [buf Hbuf] _ IH]; intros m;
    cbn [app loadStampFiles].
  - by rewrite Hbad.
  - rewrite Hbuf. apply IH.
Qed.

(** X11: when a declared stamp file cannot be read, [link] returns
    "Failed reading stamp file", the name of the first such file in
    declaration order and the cause, and has done nothing yet: no import
    configuration is built, the tool is not run, nothing is removed. *)
Theorem unreadable_stamp_file_is_fatal
    args fl0 ge toolArgs readable unreadable rest cause :
  parseArguments E args = inr (fl0, ge, toolArgs) ->
  stamps fl0 = readable ++ unreadable :: rest ->
  Forall (fun stampfile => exists buf, ReadFile E stampfile = inr buf)
         readable ->
  ReadFile E unreadable = inl cause ->
  link E args =
    ([], Some ("Failed reading stamp file " +:+ unreadable +:+ ": "
               +:+ cause)).
Proof.
  intros Hargs Hstamps Hreadable Hbad.
  unfold link. rewrite Hargs. cbv zeta.
  change (stamps (normalizePaths E fl0)) with (stamps fl0).
  rewrite Hstamps, (loadStampFiles_unreadable _ _ _ _ _ Hreadable Hbad).
  reflexivity.
Qed.

(** X12: a substitution request that does not parse keeps the tool from
    running: [link] returns an error and neither the external tool nor
    the archive post-processing is called. *)
Theorem malformed_request_stops_before_tool
    args fl0 ge toolArgs calls err xdef cause :
  parseArguments E args = inr (fl0, ge, toolArgs) ->
  link E args = (calls, err) ->
  In xdef (xstamps fl0 ++ xdefs fl0) ->
  parseXdef (packagePath fl0) xdef = inl cause ->
  err <> None /\
  (forall goargs, ~ In (RunCommand goargs) calls) /\
  (forall path, ~ In (StripArMetadata path) calls).
Proof.
  intros Hargs Hlink Hin Hbad.
  pose proof (link_exit_paths E _ _ _ _ _ _ Hargs Hlink) as Hexit.
  assert (Hnot : ~ (Forall (parses (packagePath fl0)) (xstamps fl0) /\
                    Forall (parses (packagePath fl0)) (xdefs fl0))).
  { intros [Hxs Hxd]. apply in_app_or in Hin as [Hin|Hin].
    - rewrite List.Forall_forall in Hxs. destruct (Hxs _ Hin) as [r Hr].
      rewrite Hbad in Hr. discriminate Hr.
    - rewrite List.Forall_forall in Hxd. destruct (Hxd _ Hin) as [r Hr].
      rewrite Hbad in Hr. discriminate Hr. }
  inversion Hexit; subst calls err;
    try (exfalso; apply Hnot; split; assumption);
    (split; [discriminate|]);
    split; intros ? Hc; cbn [In] in Hc; unfold importcfgCall in Hc;
    repeat (destruct Hc as [Hc|Hc]; try discriminate Hc); exact Hc.
Qed.

(** X13: [link] deletes nothing but the import configuration it
    created, and deletes it once: a removed name is the name that the
    creating call of the same run returned. *)
Theorem removes_only_what_it_created args calls err name :
  link E args = (calls, err) ->
  In (Remove name) calls ->
  List.length (List.filter isRemove calls) = 1%nat /\
  exists arcs pkgList suffix dir conflict,
    In (BuildImportcfgFileForLink arcs pkgList suffix dir conflict) calls /\
    buildImportcfgFileForLink E arcs pkgList suffix dir conflict = inr name.
Proof.
  intros Hlink Hin.
  destruct (parseArguments E args) as [e|[[fl0 ge] toolArgs]] eqn:Hargs.
  { rewrite (parseArguments_fails E _ _ Hargs) in Hlink.
    injection Hlink as <- <-. destruct Hin. }
  pose proof (link_exit_paths E _ _ _ _ _ _ Hargs Hlink) as Hexit.
  inversion Hexit; subst calls err; cbn [In] in Hin;
    unfold importcfgCall in Hin;
    repeat (destruct Hin as [Hin|Hin]; try discriminate Hin);
    try contradiction;
    injection Hin as <-;
    (split; [reflexivity|]);
    eexists _, _, _, _, _; (split; [left; reflexivity|]);
    match goal with H : importcfgResult _ _ _ = inr _ |- _ => exact H end.
Qed.

(** X14: once the arguments are parsed, the external tool is run with
    a list [goargs] exactly when every stamp file is read, the import
    configuration is built and every request parses, and [goargs] is
    then the assembled list; this holds whether the tool then succeeds
    or fails. *)
Theorem tool_run_iff_stages_succeed
    args fl0 ge toolArgs calls err (goargs : list string) :
  parseArguments E args = inr (fl0, ge, toolArgs) ->
  link E args = (calls, err) ->
  let fl := normalizePaths E fl0 in
  In (RunCommand goargs) calls <->
  exists stampMap importcfgName,
    loadStampFiles E (stamps fl) ∅ = inr stampMap /\
    importcfgResult E fl ge = inr importcfgName /\
    Forall (parses (packagePath fl)) (xstamps fl) /\
    Forall (parses (packagePath fl)) (xdefs fl) /\
    goargs = toolArguments (goTool E ge "link") importcfgName stampMap
               fl toolArgs.
Proof.
  intros Hargs Hlink fl.
  pose proof (link_exit_paths E _ _ _ _ _ _ Hargs Hlink) as Hexit.
  fold fl in Hexit. split.
  - intros Hin.
    inversion Hexit; subst calls err; cbn [In] in Hin;
      unfold importcfgCall in Hin;
      repeat (destruct Hin as [Hin|Hin]; try discriminate Hin);
      try contradiction;
      injection Hin as <-; eauto 10.
  - intros (stampMap & name & Hload & Hcfg & Hxs & Hxd & ->).
    inversion Hexit; subst calls err;
      repeat match goal with
             | H1 : ?a = inr _, H2 : ?a = inl _ |- _ =>
                 rewrite H1 in H2; discriminate H2
             | H1 : ?a = inr ?x, H2 : ?a = inr ?y |- _ =>
                 rewrite H1 in H2; injection H2 as <-
             | H : xstampsLoop _ _ _ _ = inl _ |- _ =>
                 rewrite (xstampsLoop_parses _ _ _ _ Hxs) in H;
                 discriminate H
             | H : xdefsLoop _ _ _ = inl _ |- _ =>
                 rewrite (xdefsLoop_parses _ _ _ Hxd) in H; discriminate H
             end;
      subst; right; left; reflexivity.
Qed.

(** X15: once the arguments are parsed, [link] returns no error exactly
    when every stamp file is read, the import configuration is built,
    every request parses, the tool succeeds on the assembled list and,
    for the build mode "c-archive", the archive post-processing
    succeeds. *)
Theorem link_succeeds_iff args fl0 ge toolArgs calls err :
  parseArguments E args = inr (fl0, ge, toolArgs) ->
  link E args = (calls, err) ->
  let fl := normalizePaths E fl0 in
  err = None <->
  exists stampMap importcfgName,
    loadStampFiles E (stamps fl) ∅ = inr stampMap /\
    importcfgResult E fl ge = inr importcfgName /\
    Forall (parses (packagePath fl)) (xstamps fl) /\
    Forall (parses (packagePath fl)) (xdefs fl) /\
    runCommand E ge
      (toolArguments (goTool E ge "link") importcfgName stampMap fl toolArgs)
      = None /\
    (buildmode fl = "c-archive" -> stripArMetadata E (outFile fl) = None).
Proof.
  intros Hargs Hlink fl.
  pose proof (link_exit_paths E _ _ _ _ _ _ Hargs Hlink) as Hexit.
  fold fl in Hexit. split.
  - intros ->.
    inversion Hexit; subst; eexists _, _;
      repeat split; try eassumption; try done.
  - intros (stampMap & name & Hload & Hcfg & Hxs & Hxd & Hrun & Hstrip).
    inversion Hexit; subst calls err; try reflexivity; exfalso;
      repeat match goal with
             | H1 : ?a = inr _, H2 : ?a = inl _ |- _ =>
                 rewrite H1 in H2; discriminate H2
             | H1 : ?a = inr ?x, H2 : ?a = inr ?y |- _ =>
                 rewrite H1 in H2; injection H2 as <-
             | H : xstampsLoop _ _ _ _ = inl _ |- _ =>
                 rewrite (xstampsLoop_parses _ _ _ _ Hxs) in H;
                 discriminate H
             | H : xdefsLoop _ _ _ = inl _ |- _ =>
                 rewrite (xdefsLoop_parses _ _ _ Hxd) in H; discriminate H
             end;
      subst;
      repeat match goal with
             | H : buildmode _ = "c-archive" |- _ =>
                 specialize (Hstrip H); clear H
             | H1 : ?a = None, H2 : ?a = Some _ |- _ =>
                 rewrite H1 in H2; discriminate H2
             end.
Qed.

End LinkOutcomes.

Lemma unreadable_stamp_file_is_fatal_witness :
  link (Demo.env Demo.missingStampFlags "linux" true true) [] =
    ([], Some "Failed reading stamp file missing.txt: no such file").
Proof.
  apply (unreadable_stamp_file_is_fatal
           (Demo.env Demo.missingStampFlags "linux" true true) []
           Demo.missingStampFlags tt ["-s"; "-w"]
           ["stamp.txt"] "missing.txt" ["stamp2.txt"] "no such file").
  - reflexivity.
  - reflexivity.
  - repeat constructor. by exists Demo.stampFile.
  - reflexivity.
Defined.

Lemma malformed_request_stops_before_tool_witness :
  link (Demo.env Demo.badFlags "linux" true true) [] =
    ([Demo.built; Remove "/tmp/importcfg"],
     Some "-X or -Xstamp flag does not contain '.': Name=demo") /\
  forall goargs,
    ~ In (RunCommand goargs) [Demo.built; Remove "/tmp/importcfg"].
Proof.
  assert (Hlink : link (Demo.env Demo.badFlags "linux" true true) [] =
            ([Demo.built; Remove "/tmp/importcfg"],
             Some "-X or -Xstamp flag does not contain '.': Name=demo"))
    by (vm_compute; reflexivity).
  split; [exact Hlink|].
  refine (proj1 (proj2 (malformed_request_stops_before_tool
            (Demo.env Demo.badFlags "linux" true true) []
            Demo.badFlags tt ["-s"; "-w"] _ _ "Name=demo"
            "-X or -Xstamp flag does not contain '.': Name=demo"
            _ Hlink _ _))).
  - reflexivity.
  - right. left. reflexivity.
  - reflexivity.
Defined.

Lemma removes_only_what_it_created_witness :
  List.length
    (List.filter isRemove
       [Demo.built; RunCommand Demo.expectedArgs; Remove "/tmp/importcfg"])
    = 1%nat.
Proof.
  assert (Hlink : link (Demo.env Demo.flags "linux" false true) [] =
            ([Demo.built; RunCommand Demo.expectedArgs;
              Remove "/tmp/importcfg"], Some "exit status 1"))
    by (vm_compute; reflexivity).
  refine (proj1 (removes_only_what_it_created
                   (Demo.env Demo.flags "linux" false true) [] _ _
                   "/tmp/importcfg" Hlink _)).
  right. right. left. reflexivity.
Defined.

Lemma tool_run_iff_stages_succeed_witness :
  exists stampMap importcfgName,
    loadStampFiles (Demo.env Demo.flags "linux" false true)
      ["stamp.txt"] ∅ = inr stampMap /\
    Demo.expectedArgs =
      toolArguments ["go"; "tool"; "link"] importcfgName stampMap
        (normalizePaths (Demo.env Demo.flags "linux" false true) Demo.flags)
        ["-s"; "-w"].
Proof.
  assert (Hargs : parseArguments (Demo.env Demo.flags "linux" false true) [] =
            inr (Demo.flags, tt, ["-s"; "-w"])) by reflexivity.
  assert (Hlink : link (Demo.env Demo.flags "linux" false true) [] =
            ([Demo.built; RunCommand Demo.expectedArgs;
              Remove "/tmp/importcfg"], Some "exit status 1"))
    by (vm_compute; reflexivity).
  destruct (proj1 (tool_run_iff_stages_succeed _ _ _ _ _ _ _
                     Demo.expectedArgs Hargs Hlink))
    as (stampMap & name & Hload & _ & _ & _ & Hgoargs).
  - right. left. reflexivity.
  - exists stampMap, name. split; [exact Hload|exact Hgoargs].
Defined.

Lemma link_succeeds_iff_witness :
  exists stampMap importcfgName,
    runCommand (Demo.env Demo.flags "linux" true true) tt
      (toolArguments ["go"; "tool"; "link"] importcfgName stampMap
         (normalizePaths (Demo.env Demo.flags "linux" true true) Demo.flags)
         ["-s"; "-w"]) = None /\
    stripArMetadata (Demo.env Demo.flags "linux" true true)
      "/work/out/lib.a" = None.
Proof.
  assert (Hargs : parseArguments (Demo.env Demo.flags "linux" true true) [] =
            inr (Demo.flags, tt, ["-s"; "-w"])) by reflexivity.
  assert (Hlink : link (Demo.env Demo.flags "linux" true true) [] =
            ([Demo.built; RunCommand Demo.expectedArgs;
              StripArMetadata "/work/out/lib.a"; Remove "/tmp/importcfg"],
             None)) by (vm_compute; reflexivity).
  destruct (proj1 (link_succeeds_iff _ _ _ _ _ _ _ Hargs Hlink) eq_refl)
    as (stampMap & name & _ & _ & _ & _ & Hrun & Hstrip).
  exists stampMap, name. split; [exact Hrun|]. apply Hstrip. reflexivity.
Defined.

(** ** More on the merged stamp table *)

Section StampMerging.

Context {goenv : Type}.
Variable E : Env goenv.

Lemma latestValue_app key (earlier later : list string) :
  latestValue key (earlier ++ later) =
    match latestValue key later with
    | Some v => Some v
    | None => latestValue key earlier
    end.
Proof.
  induction earlier as [|buf earlier IH]; cbn [app latestValue].
  - by destruct (latestValue key later).
  - rewrite IH. by destruct (latestValue key later).
Qed.

Lemma latestValue_is_Some key (bufs : list string) :
  is_Some (latestValue key bufs) <->
  Exists (fun buf => is_Some (fileTable buf !! key)) bufs.
Proof.
  induction bufs as [|buf bufs IH]; cbn [latestValue].
  - split; [by intros [v Hv]|by intros H%Exists_nil].
  - rewrite Exists_cons, <- IH.
    destruct (latestValue key bufs) as [v|]; split.
    + intros _. right. by exists v.
    + intros _. by exists v.
    + intros H. by left.
    + intros [H|[v Hv]]; [done|discriminate Hv].
Qed.

(** X16: merging neither loses nor invents a key: the table that
    [link] ends with has a key exactly when some declared stamp file
    has a line for it. *)
Theorem merged_keys_are_file_keys (stamps bufs : list string) :
  Forall2 (fun stampfile buf => ReadFile E stampfile = inr buf) stamps bufs ->
  exists stampMap,
    loadStampFiles E stamps ∅ = inr stampMap /\
    forall key,
      is_Some (stampMap !! key) <->
      Exists (fun buf => is_Some (fileTable buf !! key)) bufs.
Proof.
  intros Hread. eexists. split; [by apply loadStampFiles_fold|].
  intros key. rewrite fold_overwrite_lookup, lookup_empty.
  rewrite <- latestValue_is_Some.
  by destruct (latestValue key bufs).
Qed.

(** X17: declaring a stamp file again later, anywhere after its first
    declaration, makes the earlier declaration irrelevant: the merged
    table is the same as without the earlier one. *)
Theorem redeclared_stamp_file_shadows_earlier
    (before between after bufsBefore bufsBetween bufsAfter : list string)
    (stampfile buf : string) :
  Forall2 (fun f b => ReadFile E f = inr b) before bufsBefore ->
  Forall2 (fun f b => ReadFile E f = inr b) between bufsBetween ->
  Forall2 (fun f b => ReadFile E f = inr b) after bufsAfter ->
  ReadFile E stampfile = inr buf ->
  loadStampFiles E
    (before ++ stampfile :: between ++ stampfile :: after) ∅
    = loadStampFiles E (before ++ between ++ stampfile :: after) ∅.
Proof.
  intros Hbefore Hbetween Hafter Hfile.
  rewrite (loadStampFiles_fold E _
             (bufsBefore ++ buf :: bufsBetween ++ buf :: bufsAfter)).
  2:{ apply Forall2_app; [done|]. constructor; [done|].
      apply Forall2_app; [done|]. by constructor. }
  rewrite (loadStampFiles_fold E _
             (bufsBefore ++ bufsBetween ++ buf :: bufsAfter)).
  2:{ apply Forall2_app; [done|]. apply Forall2_app; [done|].
      by constructor. }
  f_equal. apply map_eq. intros key.
  rewrite !fold_overwrite_lookup.
  rewrite !latestValue_app. cbn [latestValue]. rewrite !latestValue_app.
  cbn [latestValue].
  destruct (latestValue key bufsAfter); [done|].
  destruct (fileTable buf !! key); [done|].
  by destruct (latestValue key bufsBetween).
Qed.

End StampMerging.

Lemma merged_keys_are_file_keys_witness :
  exists stampMap,
    loadStampFiles (Demo.env Demo.flags "linux" true true)
      ["stamp.txt"; "stamp2.txt"] ∅ = inr stampMap /\
    is_Some (stampMap !! "BUILD_SCM").
Proof.
  destruct (merged_keys_are_file_keys
              (Demo.env Demo.flags "linux" true true)
              ["stamp.txt"; "stamp2.txt"]
              [Demo.stampFile; Demo.stampFile2])
    as (stampMap & Hload & Hkeys).
  - repeat constructor.
  - exists stampMap. split; [exact Hload|]. apply Hkeys.
    right. left. exists "1a2b3c". vm_compute. reflexivity.
Defined.

Lemma redeclared_stamp_file_shadows_earlier_witness :
  loadStampFiles (Demo.env Demo.flags "linux" true true)
    ["stamp.txt"; "stamp2.txt"; "stamp.txt"; "stamp2.txt"] ∅
  = loadStampFiles (Demo.env Demo.flags "linux" true true)
      ["stamp2.txt"; "stamp.txt"; "stamp2.txt"] ∅.
Proof.
  refine (redeclared_stamp_file_shadows_earlier
            (Demo.env Demo.flags "linux" true true)
            [] ["stamp2.txt"] ["stamp2.txt"]
            [] [Demo.stampFile2] [Demo.stampFile2] "stamp.txt"
            Demo.stampFile _ _ _ _).
  - constructor.
  - repeat constructor.
  - repeat constructor.
  - reflexivity.
Defined.
